(** * AnsibleTest controller: parameter-override resolution and Reconcile

    A shallow embedding of [controllers/ansibletest_controller.go]:
    the reflective resolver [OverwriteAnsibleWithWorkflow], the environment
    builder [PrepareAnsibleEnv] and the [Reconcile] loop body, followed by the
    properties established about them. *)

From stdpp Require Import gmap strings list pretty.

Open Scope Z_scope.

(** ** Go run-time values *)

(** A Go computation either yields a value or panics. *)
Inductive PanicReason :=
  | ZeroValueInterface    (* reflect: call of Value.Interface on zero Value *)
  | IndexOutOfRange       (* slice index out of range *)
  | InterfaceConversion.  (* failed single-value type assertion *)

Inductive Exec (A : Type) :=
  | Done (a : A)
  | Panic (why : PanicReason).
Arguments Done {A} a.
Arguments Panic {A} why.

Global Instance Exec_ret : MRet Exec := fun _ a => Done a.
Global Instance Exec_bind : MBind Exec := fun _ _ f m =>
  match m with
  | Done a => f a
  | Panic why => Panic why
  end.

(** The Kubernetes types of the placement and resource fields. *)
Record Toleration := {
  TolKey : string;
  TolOperator : string;
  TolValue : string;
  TolEffect : string
}.

Record ResourceRequirements := {
  Limits : gmap string string;
  Requests : gmap string string
}.

(** Static Go types, as far as type assertions can tell them apart. *)
Inductive GoType :=
  | TBool
  | TUint8
  | TString
  | TStringMap
  | TTolerations
  | TResources
  | TPtr (t : GoType)
  | TNamed (name : string).

(** A dynamically typed field value, as [reflect.Value.Interface] hands it
    out.  A pointer is an [option]: [None] is the nil pointer of that type. *)
Inductive GoValue :=
  | VBool (b : bool)
  | VPBool (p : option bool)
  | VUint8 (n : Z)
  | VPUint8 (p : option Z)
  | VString (s : string)
  | VPString (p : option string)
  | VStringMap (m : gmap string string)
  | VPStringMap (p : option (gmap string string))
  | VTolerations (l : list Toleration)
  | VPTolerations (p : option (list Toleration))
  | VResources (r : ResourceRequirements)
  | VPResources (p : option ResourceRequirements)
  | VOther (ty : string) (repr : string).  (* any other type, never inspected *)

Definition type_of (v : GoValue) : GoType :=
  match v with
  | VBool _ => TBool
  | VPBool _ => TPtr TBool
  | VUint8 _ => TUint8
  | VPUint8 _ => TPtr TUint8
  | VString _ => TString
  | VPString _ => TPtr TString
  | VStringMap _ => TStringMap
  | VPStringMap _ => TPtr TStringMap
  | VTolerations _ => TTolerations
  | VPTolerations _ => TPtr TTolerations
  | VResources _ => TResources
  | VPResources _ => TPtr TResources
  | VOther ty _ => TNamed ty
  end.

(** ** The AnsibleTest spec

    The declarations of [AnsibleTestSpec] and of its workflow step live in
    the API package.  The fields that the controller reads or writes by name
    in the program text are record fields here; every other field, reached
    only through [reflect.Value.FieldByName], is kept by name in [Fields]. *)
Module WorkflowStep.
Record t := {
  NodeSelector : option (gmap string string);
  Tolerations : option (list Toleration);
  SELinuxLevel : option string;
  Resources : option ResourceRequirements;
  Fields : gmap string GoValue
}.
End WorkflowStep.

Record AnsibleTestSpec := {
  StorageClass : string;
  NodeSelector : gmap string string;
  Tolerations : list Toleration;
  SELinuxLevel : string;
  Resources : ResourceRequirements;
  Workflow : list WorkflowStep.t;
  Fields : gmap string GoValue
}.

(** Go's [interface{}]: nil, a field value, or the workflow slice itself. *)
Inductive Interface :=
  | INil
  | IVal (v : GoValue)
  | IWorkflow (l : list WorkflowStep.t).

(** [reflect.ValueOf(s).FieldByName(name)]: [None] is the zero [Value]
    returned for a name the struct does not have. *)
Definition Spec_FieldByName (s : AnsibleTestSpec) (name : string) : option Interface :=
  if decide (name = "StorageClass") then Some (IVal (VString (StorageClass s)))
  else if decide (name = "NodeSelector") then Some (IVal (VStringMap (NodeSelector s)))
  else if decide (name = "Tolerations") then Some (IVal (VTolerations (Tolerations s)))
  else if decide (name = "SELinuxLevel") then Some (IVal (VString (SELinuxLevel s)))
  else if decide (name = "Resources") then Some (IVal (VResources (Resources s)))
  else if decide (name = "Workflow") then Some (IWorkflow (Workflow s))
  else IVal <$> Fields s !! name.

Definition Step_FieldByName (w : WorkflowStep.t) (name : string) : option Interface :=
  if decide (name = "NodeSelector") then Some (IVal (VPStringMap (WorkflowStep.NodeSelector w)))
  else if decide (name = "Tolerations") then Some (IVal (VPTolerations (WorkflowStep.Tolerations w)))
  else if decide (name = "SELinuxLevel") then Some (IVal (VPString (WorkflowStep.SELinuxLevel w)))
  else if decide (name = "Resources") then Some (IVal (VPResources (WorkflowStep.Resources w)))
  else IVal <$> WorkflowStep.Fields w !! name.

(** [Value.Interface()] panics on the zero [Value]. *)
Definition Value_Interface (v : option Interface) : Exec Interface :=
  match v with
  | Some i => Done i
  | None => Panic ZeroValueInterface
  end.

(** [s[i]] for a Go [int] index. *)
Definition index {A} (s : list A) (i : Z) : Exec A :=
  if decide (0 ≤ i) then
    match s !! Z.to_nat i with
    | Some a => Done a
    | None => Panic IndexOutOfRange
    end
  else Panic IndexOutOfRange.

(** Single-value type assertions [x.(bool)] and [x.(string)]. *)
Definition assert_bool (i : Interface) : Exec bool :=
  match i with
  | IVal (VBool b) => Done b
  | _ => Panic InterfaceConversion
  end.

Definition assert_string (i : Interface) : Exec string :=
  match i with
  | IVal (VString s) => Done s
  | _ => Panic InterfaceConversion
  end.

(** ** OverwriteAnsibleWithWorkflow

    [instance] is passed by value and only read; [len] is never negative, so
    [len(instance.Workflow)-1] does not wrap. *)
Definition OverwriteAnsibleWithWorkflow
    (instance : AnsibleTestSpec) (sectionName workflowValueType : string)
    (workflowStepNum : Z) : Exec Interface :=
  if decide (Z.of_nat (length (Workflow instance)) - 1 < workflowStepNum) then
    Value_Interface (Spec_FieldByName instance sectionName)
  else
    SpecValue ← Value_Interface (Spec_FieldByName instance sectionName);
    step ← index (Workflow instance) workflowStepNum;
    WorkflowValue ← Value_Interface (Step_FieldByName step sectionName);
    if decide (workflowValueType = "pbool") then
      match WorkflowValue with
      | IVal (VPBool (Some b)) => Done (IVal (VBool b))
      | _ => b ← assert_bool SpecValue; Done (IVal (VBool b))
      end
    else if decide (workflowValueType = "puint8") then
      match WorkflowValue with
      | IVal (VPUint8 (Some n)) => Done (IVal (VUint8 n))
      | _ => Done SpecValue
      end
    else if decide (workflowValueType = "string") then
      match WorkflowValue with
      | IVal (VString val) =>
          if decide (val ≠ "") then Done WorkflowValue else Done SpecValue
      | _ => Done SpecValue
      end
    else Done INil.

(** The base type each recognised tag stands for. *)
Definition tag_type (workflowValueType : string) : option GoType :=
  if decide (workflowValueType = "pbool") then Some TBool
  else if decide (workflowValueType = "puint8") then Some TUint8
  else if decide (workflowValueType = "string") then Some TString
  else None.

(** ** PrepareAnsibleEnv

    Prepares the env variables and the override parameters of a single
    workflow step.  [env.SetValue v] is kept as the value [v] it sets. *)
Definition resolve_string (spec : AnsibleTestSpec) (sectionName : string) (step : Z)
    : Exec string :=
  OverwriteAnsibleWithWorkflow spec sectionName "string" step ≫= assert_string.

Definition resolve_bool (spec : AnsibleTestSpec) (sectionName : string) (step : Z)
    : Exec bool :=
  OverwriteAnsibleWithWorkflow spec sectionName "pbool" step ≫= assert_bool.

Definition PrepareAnsibleEnv (spec : AnsibleTestSpec) (step : Z)
    : Exec (gmap string string * gmap string string) :=
  let envVars : gmap string string := ∅ in
  let workflowOverrideParams : gmap string string := ∅ in
  v ← resolve_string spec "WorkloadSSHKeySecretName" step;
  let workflowOverrideParams := <["WorkloadSSHKeySecretName" := v]> workflowOverrideParams in
  v ← resolve_string spec "ComputesSSHKeySecretName" step;
  let workflowOverrideParams := <["ComputesSSHKeySecretName" := v]> workflowOverrideParams in
  v ← resolve_string spec "ContainerImage" step;
  let workflowOverrideParams := <["ContainerImage" := v]> workflowOverrideParams in
  debug ← resolve_bool spec "Debug" step;
  let envVars := if debug : bool then <["POD_DEBUG" := "true"]> envVars else envVars in
  extraVars ← resolve_string spec "AnsibleExtraVars" step;
  let envVars := <["POD_ANSIBLE_EXTRA_VARS" := extraVars]> envVars in
  extraVarsFile ← resolve_string spec "AnsibleVarFiles" step;
  let envVars := <["POD_ANSIBLE_FILE_EXTRA_VARS" := extraVarsFile]> envVars in
  inventory ← resolve_string spec "AnsibleInventory" step;
  let envVars := <["POD_ANSIBLE_INVENTORY" := inventory]> envVars in
  gitRepo ← resolve_string spec "AnsibleGitRepo" step;
  let envVars := <["POD_ANSIBLE_GIT_REPO" := gitRepo]> envVars in
  playbookPath ← resolve_string spec "AnsiblePlaybookPath" step;
  let envVars := <["POD_ANSIBLE_PLAYBOOK" := playbookPath]> envVars in
  ansibleCollections ← resolve_string spec "AnsibleCollections" step;
  let envVars := <["POD_INSTALL_COLLECTIONS" := ansibleCollections]> envVars in
  Done (envVars, workflowOverrideParams).

(** ** Placement and resource overrides (Reconcile, the block before the pod
    is built)

    Each of the four fields of the base spec is overwritten in place by the
    step's value when the step has one. *)
Definition ApplyStepOverrides (spec : AnsibleTestSpec) (nextWorkflowStep : Z)
    : Exec AnsibleTestSpec :=
  if decide (nextWorkflowStep < Z.of_nat (length (Workflow spec))) then
    w ← index (Workflow spec) nextWorkflowStep;
    let spec :=
      match WorkflowStep.NodeSelector w with
      | Some v =>
          {| StorageClass := StorageClass spec; NodeSelector := v;
             Tolerations := Tolerations spec; SELinuxLevel := SELinuxLevel spec;
             Resources := Resources spec; Workflow := Workflow spec;
             Fields := Fields spec |}
      | None => spec
      end in
    let spec :=
      match WorkflowStep.Tolerations w with
      | Some v =>
          {| StorageClass := StorageClass spec; NodeSelector := NodeSelector spec;
             Tolerations := v; SELinuxLevel := SELinuxLevel spec;
             Resources := Resources spec; Workflow := Workflow spec;
             Fields := Fields spec |}
      | None => spec
      end in
    let spec :=
      match WorkflowStep.SELinuxLevel w with
      | Some v =>
          {| StorageClass := StorageClass spec; NodeSelector := NodeSelector spec;
             Tolerations := Tolerations spec; SELinuxLevel := v;
             Resources := Resources spec; Workflow := Workflow spec;
             Fields := Fields spec |}
      | None => spec
      end in
    let spec :=
      match WorkflowStep.Resources w with
      | Some v =>
          {| StorageClass := StorageClass spec; NodeSelector := NodeSelector spec;
             Tolerations := Tolerations spec; SELinuxLevel := SELinuxLevel spec;
             Resources := v; Workflow := Workflow spec;
             Fields := Fields spec |}
      | None => spec
      end in
    Done spec
  else Done spec.

(** ** Status conditions *)

Inductive ConditionType :=
  | ReadyCondition
  | ServiceConfigReadyCondition
  | DeploymentReadyCondition.

Inductive ConditionStatus :=
  | ConditionTrue
  | ConditionFalse
  | ConditionUnknown.

Inductive ConditionSeverity :=
  | SeverityNone
  | SeverityInfo
  | SeverityWarning
  | SeverityError.

Inductive ConditionReason :=
  | InitReason
  | ReadyReason
  | RequestedReason
  | ErrorReason.

(** The message formats of the condition package, by the name of the
    constant; a message is a format with its arguments. *)
Inductive MessageFormat :=
  | ReadyInitMessage
  | ReadyMessage
  | ServiceConfigReadyMessage
  | DeploymentReadyInitMessage
  | DeploymentReadyMessage
  | DeploymentReadyErrorMessage
  | DeploymentReadyRunningMessage.

Global Instance ConditionType_eq_dec : EqDecision ConditionType.
Proof. solve_decision. Defined.
Global Instance ConditionStatus_eq_dec : EqDecision ConditionStatus.
Proof. solve_decision. Defined.

Record Condition := {
  Type_ : ConditionType;
  Status : ConditionStatus;
  Severity : ConditionSeverity;
  Reason : ConditionReason;
  Message : MessageFormat * list string;
  LastTransitionTime : Z
}.

Definition with_time (time : Z) (c : Condition) : Condition :=
  {| Type_ := Type_ c; Status := Status c; Severity := Severity c;
     Reason := Reason c; Message := Message c; LastTransitionTime := time |}.

(** Modelled from the spec: the constructors of the condition package, which
    is not part of the controller's file.  A condition is {status, reason,
    message, lastTransitionTime}; the time is stamped when it is recorded. *)
Definition UnknownCondition (t : ConditionType) (reason : ConditionReason)
    (message : MessageFormat) : Condition :=
  {| Type_ := t; Status := ConditionUnknown; Severity := SeverityNone;
     Reason := reason; Message := (message, []); LastTransitionTime := 0 |}.

Definition TrueCondition (t : ConditionType) (message : MessageFormat) : Condition :=
  {| Type_ := t; Status := ConditionTrue; Severity := SeverityNone;
     Reason := ReadyReason; Message := (message, []); LastTransitionTime := 0 |}.

Definition FalseCondition (t : ConditionType) (reason : ConditionReason)
    (severity : ConditionSeverity) (message : MessageFormat) (args : list string)
    : Condition :=
  {| Type_ := t; Status := ConditionFalse; Severity := severity;
     Reason := reason; Message := (message, args); LastTransitionTime := 0 |}.

(** Modelled from the spec: [Conditions.Get], the recorded condition of a
    type. *)
Definition Conditions_Get (t : ConditionType) (cs : list Condition) : option Condition :=
  List.find (λ c, bool_decide (Type_ c = t)) cs.

(** Modelled from the spec: [Conditions.Set].  The condition replaces the
    recorded one of its type, or is added after the others.  "A Condition's
    lastTransitionTime changes only when its status value changes": the
    recorded time is kept when the status value is the same, and is the
    current time otherwise. *)
Fixpoint Conditions_Set (now : Z) (c : Condition) (cs : list Condition)
    : list Condition :=
  match cs with
  | [] => [with_time now c]
  | x :: rest =>
      if decide (Type_ x = Type_ c) then
        (if decide (Status x = Status c)
         then with_time (LastTransitionTime x) c
         else with_time now c) :: rest
      else x :: Conditions_Set now c rest
  end.

(** Modelled from the spec: [Conditions.Init], "initialize all Conditions":
    every condition of the list is recorded. *)
Definition Conditions_Init (now : Z) (cl : list Condition) (cs : list Condition)
    : list Condition :=
  foldl (λ acc c, Conditions_Set now c acc) cs cl.

(** Modelled from the spec: [AllSubConditionIsTrue], "all sub-conditions are
    True": every condition other than Ready has status True. *)
Definition AllSubConditionIsTrue (cs : list Condition) : bool :=
  forallb (λ c, bool_decide (Type_ c = ReadyCondition)
                || bool_decide (Status c = ConditionTrue)) cs.

(** Modelled from the spec: [IsUnknown]; a condition that is not recorded is
    unknown. *)
Definition Conditions_IsUnknown (t : ConditionType) (cs : list Condition) : bool :=
  match Conditions_Get t cs with
  | Some c => bool_decide (Status c = ConditionUnknown)
  | None => true
  end.

(** Modelled from the spec: [RestoreLastTransitionTimes], which "preserves
    each Condition's lastTransitionTime unless its status value actually
    changed versus the pre-reconcile snapshot". *)
Definition restore_time (saved : list Condition) (c : Condition) : Condition :=
  match Conditions_Get (Type_ c) saved with
  | Some s =>
      if decide (Status s = Status c)
      then with_time (LastTransitionTime s) c
      else c
  | None => c
  end.

Definition RestoreLastTransitionTimes (cs saved : list Condition) : list Condition :=
  restore_time saved <$> cs.

(** Modelled from the spec: [Mirror], which "mirrors the first non-ready
    sub-condition onto Ready": the first condition other than Ready whose
    status is not True, retyped; nil when there is none. *)
Definition non_ready (c : Condition) : bool :=
  negb (bool_decide (Type_ c = ReadyCondition))
  && negb (bool_decide (Status c = ConditionTrue)).

Definition first_non_ready (cs : list Condition) : option Condition :=
  List.find non_ready cs.

Definition Conditions_Mirror (t : ConditionType) (cs : list Condition)
    : option Condition :=
  (λ c, {| Type_ := t; Status := Status c; Severity := Severity c;
           Reason := Reason c; Message := Message c;
           LastTransitionTime := 0 |}) <$> first_non_ready cs.

Definition status_of (t : ConditionType) (cs : list Condition) : option ConditionStatus :=
  Status <$> Conditions_Get t cs.

(** ** The controller's surroundings *)

(** An [error], by its message ([err.Error()]); a nil error is [None]. *)
Definition error := string.

(** [ctrl.Result]. *)
Record ctrl_Result := {
  Requeue : bool;
  RequeueAfter : Z
}.

Global Instance ctrl_Result_eq_dec : EqDecision ctrl_Result.
Proof. solve_decision. Defined.

Definition Result_empty : ctrl_Result := {| Requeue := false; RequeueAfter := 0 |}.

Record AnsibleTest := {
  Name : string;
  Spec : AnsibleTestSpec;
  Conditions : option (list Condition)   (* Status.Conditions; [None] is nil *)
}.

(** [&testv1beta1.AnsibleTest{}] *)
Definition AnsibleTest_zero : AnsibleTest :=
  {| Name := "";
     Spec := {| StorageClass := ""; NodeSelector := ∅; Tolerations := [];
                SELinuxLevel := "";
                Resources := {| Limits := ∅; Requests := ∅ |};
                Workflow := []; Fields := ∅ |};
     Conditions := None |}.

Definition conditions_of (obj : AnsibleTest) : list Condition :=
  default [] (Conditions obj).

Definition set_conditions (cs : list Condition) (obj : AnsibleTest) : AnsibleTest :=
  {| Name := Name obj; Spec := Spec obj; Conditions := Some cs |}.

Definition set_spec (spec : AnsibleTestSpec) (obj : AnsibleTest) : AnsibleTest :=
  {| Name := Name obj; Spec := spec; Conditions := Conditions obj |}.

(** The actions [NextAction] decides between. *)
Inductive Action :=
  | Wait
  | CreateFirstPod
  | CreateNextPod
  | EndTesting
  | Failure
  | UnexpectedAction (n : Z).

Inductive GetResult :=
  | Found (obj : AnsibleTest)
  | NotFound (err : error)     (* an error with [k8s_errors.IsNotFound] *)
  | GetFailed (err : error).

Inductive LogMessage :=
  | InfoWaitingOnPod
  | InfoCanNotReleaseLock
  | InfoTestingCompleted
  | InfoCanNotAcquireLock
  | InfoCreatingFirstPod (step : Z)
  | ErrConfirmLockOwnership
  | InfoCreatingNextPod (step : Z)
  | ReconciledServiceSuccessfully.

Inductive LabelKey :=
  | AppSelector
  | workflowStepLabel
  | instanceNameLabel
  | operatorNameLabel.

(** The arguments [ansibletest.Pod] builds the pod from; [pod_instance] is
    the instance as it is when the pod is built. *)
Record PodArgs := {
  pod_instance : AnsibleTest;
  pod_labels : list (LabelKey * string);
  pod_podName : string;
  pod_logsPVCName : string;
  pod_mountCerts : bool;
  pod_envVars : gmap string string;
  pod_workflowOverrideParams : gmap string string;
  pod_workflowStep : Z;
  pod_containerImage : string;
  pod_privileged : bool
}.

(** What one invocation of Reconcile meets: the package constants it uses,
    and the answer of each helper of the embedded [Reconciler] and of the
    cluster client.  Every helper is called at most once per invocation. *)
Record Env := {
  RequeueAfterValue : Z;
  ErrReceivedUnexpectedAction : string;
  ServiceName : string;
  Client_Get : GetResult;
  NewHelper : option error;
  NextAction : Action * Z * option error;
  ReleaseLock : bool * option error;
  AcquireLock : bool * option error;
  EnsureLogsPVCExists : ctrl_Result * option error;
  CheckSecretExists : string → bool;
  GetPodName : AnsibleTest → Z → string;
  GetPVCLogsName : AnsibleTest → Z → string;
  GetContainerImage : string → AnsibleTest → string * option error;
  CreatePod : ctrl_Result * option error;
  PatchInstance : option error;
  Now : Z
}.

(** What an invocation does, in program order. *)
Inductive Event :=
  | Call_Get
  | Call_NewHelper
  | Call_NextAction (workflowLength : Z)
  | Log_Info (m : LogMessage)
  | Log_Error (err : option error) (m : LogMessage)
  | Call_ReleaseLock (lockReleased : bool)
  | Call_AcquireLock (lockAcquired : bool)
  | Call_EnsureLogsPVCExists (labels : list (LabelKey * string)) (storageClass : string)
  | Call_CheckSecretExists (name : string)
  | Call_GetContainerImage (image : string)
  | Call_Pod (p : PodArgs)
  | Call_CreatePod (p : PodArgs)
  | Conditions_Write (c : Condition)         (* MarkTrue / Set in the body *)
  | Conditions_InitWrite (cl : list Condition)
  | Call_PatchInstance (obj : AnsibleTest).

Record State := {
  instance : AnsibleTest;
  trace : list Event
}.

(** How an invocation ends: with the named results, or panicking. *)
Inductive Exit :=
  | Returned (result : ctrl_Result) (_err : option error)
  | Panicked (why : PanicReason).

(** A statement sequence of the body either goes on or leaves the function. *)
Inductive Step (A : Type) :=
  | Next (a : A) (s : State)
  | Stop (x : Exit) (s : State).
Arguments Next {A} a s.
Arguments Stop {A} x s.

Definition Body (A : Type) : Type := State → Step A.

Global Instance Body_ret : MRet Body := λ _ a s, Next a s.
Global Instance Body_bind : MBind Body := λ _ _ f m s,
  match m s with
  | Next a s' => f a s'
  | Stop x s' => Stop x s'
  end.

Definition emit (e : Event) : Body unit := λ s,
  Next () {| instance := instance s; trace := trace s ++ [e] |}.

Definition the_instance : Body AnsibleTest := λ s, Next (instance s) s.

Definition store (obj : AnsibleTest) : Body unit := λ s,
  Next () {| instance := obj; trace := trace s |}.

Definition return_ {A} (result : ctrl_Result) (err : option error) : Body A := λ s,
  Stop (Returned result err) s.

Definition run {A} (e : Exec A) : Body A := λ s,
  match e with
  | Done a => Next a s
  | Panic why => Stop (Panicked why) s
  end.

(** [instance.Status.Conditions.Set(c)] *)
Definition Status_Set (env : Env) (c : Condition) : Body unit :=
  obj ← the_instance;
  store (set_conditions (Conditions_Set (Now env) c (conditions_of obj)) obj);;
  emit (Conditions_Write c).

(** [instance.Status.Conditions.MarkTrue(t, message)] *)
Definition Status_MarkTrue (env : Env) (t : ConditionType) (message : MessageFormat)
    : Body unit :=
  Status_Set env (TrueCondition t message).

(** [instance.Status.Conditions.Init(&cl)] *)
Definition Status_Init (env : Env) (cl : list Condition) : Body unit :=
  obj ← the_instance;
  store (set_conditions (Conditions_Init (Now env) cl (conditions_of obj)) obj);;
  emit (Conditions_InitWrite cl).

(** ** Reconcile *)

(** Fetching the instance and creating the helper: the statements before the
    deferred function is set up. *)
Definition fetch (env : Env) : Body unit :=
  emit Call_Get;;
  (match Client_Get env with
   | Found obj => store obj
   | NotFound _ => return_ Result_empty None
   | GetFailed err => return_ Result_empty (Some err)
   end : Body unit);;
  emit Call_NewHelper;;
  match NewHelper env with
  | None => mret ()
  | Some err => return_ Result_empty (Some err)
  end.

(** The [switch nextAction]; falling out of it goes on to the pod creation. *)
Definition dispatch (env : Env) (nextAction : Action) (nextWorkflowStep : Z)
    (err : option error) : Body unit :=
  match nextAction with
  | Failure => return_ Result_empty err
  | Wait =>
      emit (Log_Info InfoWaitingOnPod);;
      return_ {| Requeue := false; RequeueAfter := RequeueAfterValue env |} None
  | EndTesting =>
      emit (Call_ReleaseLock (ReleaseLock env).1);;
      let '(lockReleased, err) := ReleaseLock env in
      if negb lockReleased then
        emit (Log_Info InfoCanNotReleaseLock);;
        return_ {| Requeue := false; RequeueAfter := RequeueAfterValue env |} err
      else
        Status_MarkTrue env DeploymentReadyCondition DeploymentReadyMessage;;
        emit (Log_Info InfoTestingCompleted);;
        return_ Result_empty None
  | CreateFirstPod =>
      emit (Call_AcquireLock (AcquireLock env).1);;
      let '(lockAcquired, err) := AcquireLock env in
      if negb lockAcquired then
        emit (Log_Info InfoCanNotAcquireLock);;
        return_ {| Requeue := false; RequeueAfter := RequeueAfterValue env |} err
      else
        emit (Log_Info (InfoCreatingFirstPod nextWorkflowStep))
  | CreateNextPod =>
      emit (Call_AcquireLock (AcquireLock env).1);;
      let '(lockAcquired, err) := AcquireLock env in
      if negb lockAcquired then
        emit (Log_Error err ErrConfirmLockOwnership);;
        return_ {| Requeue := false; RequeueAfter := RequeueAfterValue env |} err
      else
        emit (Log_Info (InfoCreatingNextPod nextWorkflowStep))
  | UnexpectedAction _ =>
      return_ Result_empty (Some (ErrReceivedUnexpectedAction env))
  end.

(** From the service labels to the end of the function. *)
Definition create_pod (env : Env) (nextWorkflowStep : Z) : Body Empty_set :=
  obj ← the_instance;
  let serviceLabels :=
    [ (AppSelector, ServiceName env);
      (workflowStepLabel, pretty nextWorkflowStep);
      (instanceNameLabel, Name obj);
      (operatorNameLabel, "test-operator") ] in
  emit (Call_EnsureLogsPVCExists serviceLabels (StorageClass (Spec obj)));;
  let '(ctrlResult, err) := EnsureLogsPVCExists env in
  (match err with
   | Some e => return_ ctrlResult (Some e)
   | None =>
       if decide (ctrlResult ≠ Result_empty) then return_ ctrlResult None
       else mret ()
   end : Body unit);;
  Status_MarkTrue env ServiceConfigReadyCondition ServiceConfigReadyMessage;;
  emit (Call_CheckSecretExists "combined-ca-bundle");;
  let mountCerts := CheckSecretExists env "combined-ca-bundle" in
  obj ← the_instance;
  let podName := GetPodName env obj nextWorkflowStep in
  '(envVars, workflowOverrideParams) ← run (PrepareAnsibleEnv (Spec obj) nextWorkflowStep);
  let logsPVCName := GetPVCLogsName env obj 0 in
  let image := default "" (workflowOverrideParams !! "ContainerImage") in
  emit (Call_GetContainerImage image);;
  let '(containerImage, err) := GetContainerImage env image obj in
  privileged ← run (resolve_bool (Spec obj) "Privileged" nextWorkflowStep);
  (match err with
   | Some e => return_ Result_empty (Some e)
   | None => mret ()
   end : Body unit);;
  spec ← run (ApplyStepOverrides (Spec obj) nextWorkflowStep);
  store (set_spec spec obj);;
  obj ← the_instance;
  let podDef :=
    {| pod_instance := obj; pod_labels := serviceLabels; pod_podName := podName;
       pod_logsPVCName := logsPVCName; pod_mountCerts := mountCerts;
       pod_envVars := envVars;
       pod_workflowOverrideParams := workflowOverrideParams;
       pod_workflowStep := nextWorkflowStep;
       pod_containerImage := containerImage; pod_privileged := privileged |} in
  emit (Call_Pod podDef);;
  emit (Call_CreatePod podDef);;
  let '(ctrlResult, err) := CreatePod env in
  match err with
  | Some e =>
      emit (Call_ReleaseLock (ReleaseLock env).1);;
      let '(lockReleased, err) := ReleaseLock env in
      if negb lockReleased then return_ Result_empty err
      else
        Status_Set env (FalseCondition DeploymentReadyCondition ErrorReason
                          SeverityWarning DeploymentReadyErrorMessage [e]);;
        return_ ctrlResult (Some e)
  | None =>
      if decide (ctrlResult ≠ Result_empty) then
        Status_Set env (FalseCondition DeploymentReadyCondition RequestedReason
                          SeverityInfo DeploymentReadyRunningMessage []);;
        return_ ctrlResult None
      else
        emit (Log_Info ReconciledServiceSuccessfully);;
        return_ Result_empty None
  end.

(** The body after the deferred function is set up. *)
Definition Reconcile_body (env : Env) (isNewInstance : bool) : Body Empty_set :=
  if isNewInstance then
    let cl :=
      [ UnknownCondition ReadyCondition InitReason ReadyInitMessage;
        UnknownCondition ServiceConfigReadyCondition InitReason ServiceConfigReadyMessage;
        UnknownCondition DeploymentReadyCondition InitReason DeploymentReadyInitMessage ] in
    Status_Init env cl;;
    return_ Result_empty None
  else
    obj ← the_instance;
    let workflowLength := Z.of_nat (length (Workflow (Spec obj))) in
    emit (Call_NextAction workflowLength);;
    let '(nextAction, nextWorkflowStep, err) := NextAction env in
    dispatch env nextAction nextWorkflowStep err;;
    create_pod env nextWorkflowStep.

(** The three steps of the deferred function on the conditions. *)
Definition defer_promote (now : Z) (cs : list Condition) : list Condition :=
  if AllSubConditionIsTrue cs
  then Conditions_Set now (TrueCondition ReadyCondition ReadyMessage) cs
  else cs.

Definition defer_restore (savedConditions cs : list Condition) : list Condition :=
  RestoreLastTransitionTimes cs savedConditions.

Definition defer_mirror (now : Z) (cs : list Condition) : list Condition :=
  if Conditions_IsUnknown ReadyCondition cs then
    match Conditions_Mirror ReadyCondition cs with
    | Some c => Conditions_Set now c cs
    | None => cs                      (* Set(nil) *)
    end
  else cs.

Definition deferred_conditions (now : Z) (savedConditions cs : list Condition)
    : list Condition :=
  defer_mirror now (defer_restore savedConditions (defer_promote now cs)).

(** The deferred function: it runs when the body returns and when it
    panics; a failed patch replaces the returned error. *)
Definition deferred (env : Env) (savedConditions : list Condition)
    (x : Exit) (s : State) : Exit * State :=
  let obj :=
    set_conditions
      (deferred_conditions (Now env) savedConditions (conditions_of (instance s)))
      (instance s) in
  let x :=
    match PatchInstance env, x with
    | Some err, Returned result _ => Returned result (Some err)
    | _, _ => x
    end in
  (x, {| instance := obj; trace := trace s ++ [Call_PatchInstance obj] |}).

(** The state in which the body starts: a nil condition list is replaced by
    an empty one. *)
Definition isNew (obj : AnsibleTest) : bool :=
  match Conditions obj with
  | None => true
  | Some _ => false
  end.

Definition init_status (s : State) : State :=
  if isNew (instance s)
  then {| instance := set_conditions [] (instance s); trace := trace s |}
  else s.

Definition Reconcile (env : Env) : Exit * State :=
  match fetch env {| instance := AnsibleTest_zero; trace := [] |} with
  | Stop x s => (x, s)
  | Next _ s =>
      let isNewInstance := isNew (instance s) in
      let s := init_status s in
      let savedConditions := conditions_of (instance s) in   (* DeepCopy *)
      match Reconcile_body env isNewInstance s with
      | Stop x s' => deferred env savedConditions x s'
      | Next e _ => match e with end
      end
  end.

(** Whether this instance holds the lock after a run, as far as the lock
    helpers reported it: acquired by a reported acquisition, given up by a
    reported release. *)
Definition lock_held (before : bool) (tr : list Event) : bool :=
  foldl (λ held e,
           match e with
           | Call_AcquireLock true => true
           | Call_ReleaseLock true => false
           | _ => held
           end) before tr.

(** The pods an invocation built and the pods it submitted. *)
Definition pods_built (tr : list Event) : list PodArgs :=
  omap (λ e, match e with Call_Pod p => Some p | _ => None end) tr.

Definition pods_submitted (tr : list Event) : list PodArgs :=
  omap (λ e, match e with Call_CreatePod p => Some p | _ => None end) tr.

(** ** Sample instances *)

Definition step_with (fields : gmap string GoValue) : WorkflowStep.t :=
  {| WorkflowStep.NodeSelector := None; WorkflowStep.Tolerations := None;
     WorkflowStep.SELinuxLevel := None; WorkflowStep.Resources := None;
     WorkflowStep.Fields := fields |}.

Definition spec_with (fields : gmap string GoValue) (workflow : list WorkflowStep.t)
    : AnsibleTestSpec :=
  {| StorageClass := "local-storage"; NodeSelector := ∅; Tolerations := [];
     SELinuxLevel := ""; Resources := {| Limits := ∅; Requests := ∅ |};
     Workflow := workflow; Fields := fields |}.

(** Scenario C: the base image is "default:v1" and step 0 overrides it. *)
Definition scenario_C : AnsibleTestSpec :=
  spec_with {[ "ContainerImage" := VString "default:v1" ]}
            [ step_with {[ "ContainerImage" := VString "custom:v2" ]} ].

(** A base with debugging on and privileges off, and one step that sets
    neither flag and blanks the image. *)
Definition spec_flags : AnsibleTestSpec :=
  spec_with {[ "Debug" := VBool true; "Privileged" := VBool false;
               "ContainerImage" := VString "default:v1" ]}
            [ step_with {[ "Debug" := VPBool None; "Privileged" := VPBool (Some true);
                           "ContainerImage" := VString "" ]} ].

(** An instance with every field that [PrepareAnsibleEnv] resolves, and one
    workflow step that overrides the image, the node selector and the
    SELinux level. *)
Definition base_fields : gmap string GoValue :=
  {[ "WorkloadSSHKeySecretName" := VString "workload-key";
     "ComputesSSHKeySecretName" := VString "computes-key";
     "ContainerImage" := VString "default:v1";
     "Debug" := VBool false;
     "Privileged" := VBool false;
     "AnsibleExtraVars" := VString "";
     "AnsibleVarFiles" := VString "";
     "AnsibleInventory" := VString "";
     "AnsibleGitRepo" := VString "https://example.org/playbooks.git";
     "AnsiblePlaybookPath" := VString "site.yml";
     "AnsibleCollections" := VString "" ]}.

Definition step_fields : gmap string GoValue :=
  {[ "WorkloadSSHKeySecretName" := VString "";
     "ComputesSSHKeySecretName" := VString "";
     "ContainerImage" := VString "custom:v2";
     "Debug" := VPBool None;
     "Privileged" := VPBool None;
     "AnsibleExtraVars" := VString "";
     "AnsibleVarFiles" := VString "";
     "AnsibleInventory" := VString "";
     "AnsibleGitRepo" := VString "";
     "AnsiblePlaybookPath" := VString "";
     "AnsibleCollections" := VString "" ]}.

Definition sample_step : WorkflowStep.t :=
  {| WorkflowStep.NodeSelector := Some {[ "zone" := "a" ]};
     WorkflowStep.Tolerations := None;
     WorkflowStep.SELinuxLevel := Some "s0:c1,c2";
     WorkflowStep.Resources := None;
     WorkflowStep.Fields := step_fields |}.

Definition sample_instance (conditions : option (list Condition)) : AnsibleTest :=
  {| Name := "ansibletest-sample";
     Spec := spec_with base_fields [sample_step];
     Conditions := conditions |}.

(** The conditions of an instance whose first pod is running. *)
Definition running_conditions : list Condition :=
  [ with_time 10 (UnknownCondition ReadyCondition InitReason DeploymentReadyInitMessage);
    with_time 20 (TrueCondition ServiceConfigReadyCondition ServiceConfigReadyMessage);
    with_time 10 (UnknownCondition DeploymentReadyCondition InitReason
                    DeploymentReadyInitMessage) ].

Definition sample_env (get : GetResult) (helper : option error)
    (next : Action * Z * option error) (release acquire : bool * option error)
    (create : ctrl_Result * option error) (patch : option error) : Env :=
  {| RequeueAfterValue := 60;
     ErrReceivedUnexpectedAction := "received unexpected action";
     ServiceName := "ansibleTest";
     Client_Get := get;
     NewHelper := helper;
     NextAction := next;
     ReleaseLock := release;
     AcquireLock := acquire;
     EnsureLogsPVCExists := (Result_empty, None);
     CheckSecretExists := λ _, false;
     GetPodName := λ obj step, Name obj +:+ "-s" +:+ pretty step;
     GetPVCLogsName := λ obj i, Name obj +:+ "-logs-" +:+ pretty i;
     GetContainerImage := λ image _, (image, None);
     CreatePod := create;
     PatchInstance := patch;
     Now := 100 |}.

(** Invocations on the sample instance. *)
Definition env_EndTesting : Env :=
  sample_env (Found (sample_instance (Some running_conditions))) None
    (EndTesting, 0, None) (true, None) (false, None) (Result_empty, None) None.

Definition env_first_pod_contended : Env :=
  sample_env (Found (sample_instance (Some running_conditions))) None
    (CreateFirstPod, 0, None) (false, None) (false, None) (Result_empty, None) None.

Definition env_next_pod_lock_lost : Env :=
  sample_env (Found (sample_instance (Some running_conditions))) None
    (CreateNextPod, 0, None) (false, None) (false, None) (Result_empty, None) None.

Definition env_submission_fails : Env :=
  sample_env (Found (sample_instance (Some running_conditions))) None
    (CreateFirstPod, 0, None) (true, None) (true, None)
    (Result_empty, Some "pods is forbidden") None.

Definition env_submission_fails_lock_kept : Env :=
  sample_env (Found (sample_instance (Some running_conditions))) None
    (CreateFirstPod, 0, None) (false, None) (true, None)
    (Result_empty, Some "pods is forbidden") None.

Definition env_first_seen : Env :=
  sample_env (Found (sample_instance None)) None
    (CreateFirstPod, 0, None) (true, None) (true, None) (Result_empty, None) None.

Definition env_pod_created : Env :=
  sample_env (Found (sample_instance (Some running_conditions))) None
    (CreateFirstPod, 0, None) (true, None) (true, None) (Result_empty, None) None.

(** The pod built for step 0 of the sample instance. *)
Definition sample_pod : PodArgs :=
  {| pod_instance :=
       {| Name := "ansibletest-sample";
          Spec :=
            {| StorageClass := "local-storage";
               NodeSelector := {[ "zone" := "a" ]};
               Tolerations := [];
               SELinuxLevel := "s0:c1,c2";
               Resources := {| Limits := ∅; Requests := ∅ |};
               Workflow := [sample_step];
               Fields := base_fields |};
          Conditions := Some running_conditions |};
     pod_labels :=
       [ (AppSelector, "ansibleTest"); (workflowStepLabel, "0");
         (instanceNameLabel, "ansibletest-sample");
         (operatorNameLabel, "test-operator") ];
     pod_podName := "ansibletest-sample-s0";
     pod_logsPVCName := "ansibletest-sample-logs-0";
     pod_mountCerts := false;
     pod_envVars :=
       {[ "POD_ANSIBLE_EXTRA_VARS" := "";
          "POD_ANSIBLE_FILE_EXTRA_VARS" := "";
          "POD_ANSIBLE_INVENTORY" := "";
          "POD_ANSIBLE_GIT_REPO" := "https://example.org/playbooks.git";
          "POD_ANSIBLE_PLAYBOOK" := "site.yml";
          "POD_INSTALL_COLLECTIONS" := "" ]};
     pod_workflowOverrideParams :=
       {[ "WorkloadSSHKeySecretName" := "workload-key";
          "ComputesSSHKeySecretName" := "computes-key";
          "ContainerImage" := "custom:v2" ]};
     pod_workflowStep := 0;
     pod_containerImage := "custom:v2";
     pod_privileged := false |}.

(** An instance whose sub-conditions are all True while Ready is still
    unknown, met by an invocation that cannot create its helper, and an
    invocation that does not find its instance. *)
Definition completed_conditions : list Condition :=
  [ with_time 10 (UnknownCondition ReadyCondition InitReason DeploymentReadyInitMessage);
    with_time 20 (TrueCondition ServiceConfigReadyCondition ServiceConfigReadyMessage);
    with_time 30 (TrueCondition DeploymentReadyCondition DeploymentReadyMessage) ].

Definition env_helper_fails : Env :=
  sample_env (Found (sample_instance (Some completed_conditions)))
    (Some "no kind is registered for the type")
    (EndTesting, 0, None) (true, None) (true, None) (Result_empty, None) None.

Definition env_not_found : Env :=
  sample_env (NotFound "ansibletests.test.openstack.org not found") None
    (EndTesting, 0, None) (true, None) (true, None) (Result_empty, None) None.

(** ** Tables of [PrepareAnsibleEnv] *)

(** The override parameters it fills, by the name of the field they are
    resolved from. *)
Definition override_param_names : list string :=
  [ "WorkloadSSHKeySecretName"; "ComputesSSHKeySecretName"; "ContainerImage" ].

(** The env variables it always sets, each with the field it is resolved
    from. *)
Definition env_var_table : list (string * string) :=
  [ ("POD_ANSIBLE_EXTRA_VARS", "AnsibleExtraVars");
    ("POD_ANSIBLE_FILE_EXTRA_VARS", "AnsibleVarFiles");
    ("POD_ANSIBLE_INVENTORY", "AnsibleInventory");
    ("POD_ANSIBLE_GIT_REPO", "AnsibleGitRepo");
    ("POD_ANSIBLE_PLAYBOOK", "AnsiblePlaybookPath");
    ("POD_INSTALL_COLLECTIONS", "AnsibleCollections") ].

(** The fields it resolves with the "string" tag. *)
Definition string_sections : list string :=
  override_param_names ++ env_var_table.*2.

(** The type an override must have to be looked at under each tag. *)
Definition tag_override_type (workflowValueType : string) : option GoType :=
  if decide (workflowValueType = "pbool") then Some (TPtr TBool)
  else if decide (workflowValueType = "puint8") then Some (TPtr TUint8)
  else if decide (workflowValueType = "string") then Some TString
  else None.

(** A spec has what [PrepareAnsibleEnv] reads: string fields and a boolean
    Debug in the base, and each of these names in every step. *)
Definition prepares (spec : AnsibleTestSpec) : Prop :=
  (∀ name, name ∈ string_sections →
     ∃ s, Fields spec !! name = Some (VString s))
  ∧ (∃ b, Fields spec !! "Debug" = Some (VBool b))
  ∧ (∀ w name, w ∈ Workflow spec → name ∈ "Debug" :: string_sections →
       is_Some (WorkflowStep.Fields w !! name)).

(** Picks the events of a kind out of a trace. *)
Definition picked (pick : Event → bool) (tr : list Event) : list Event :=
  filter (λ e, pick e = true) tr.

Definition is_lock_call (e : Event) : bool :=
  match e with
  | Call_AcquireLock _ | Call_ReleaseLock _ => true
  | _ => false
  end.

Definition is_image_call (e : Event) : bool :=
  match e with
  | Call_GetContainerImage _ => true
  | _ => false
  end.

Definition is_pvc_call (e : Event) : bool :=
  match e with
  | Call_EnsureLogsPVCExists _ _ => true
  | _ => false
  end.

(** ** More sample instances *)

(** A base with a numeric field and a step that overrides it, next to a step
    that has the same names with values of other types. *)
Definition spec_numeric : AnsibleTestSpec :=
  spec_with {[ "Retries" := VUint8 3; "ContainerImage" := VString "default:v1";
               "Label" := VOther "resource.Quantity" "1Gi" ]}
            [ step_with {[ "Retries" := VPUint8 (Some 5);
                           "ContainerImage" := VPString (Some "custom:v2");
                           "Label" := VPBool None ]};
              step_with {[ "Retries" := VPUint8 None;
                           "ContainerImage" := VString "";
                           "Label" := VPBool None ]} ].

Definition env_on (next : Action * Z * option error)
    (pvc : ctrl_Result * option error)
    (image : string → AnsibleTest → string * option error)
    (create : ctrl_Result * option error) : Env :=
  {| RequeueAfterValue := 60;
     ErrReceivedUnexpectedAction := "received unexpected action";
     ServiceName := "ansibleTest";
     Client_Get := Found (sample_instance (Some running_conditions));
     NewHelper := None;
     NextAction := next;
     ReleaseLock := (true, None);
     AcquireLock := (true, None);
     EnsureLogsPVCExists := pvc;
     CheckSecretExists := λ _, false;
     GetPodName := λ obj step, Name obj +:+ "-s" +:+ pretty step;
     GetPVCLogsName := λ obj i, Name obj +:+ "-logs-" +:+ pretty i;
     GetContainerImage := image;
     CreatePod := create;
     PatchInstance := None;
     Now := 100 |}.

Definition env_wait : Env :=
  env_on (Wait, 0, None) (Result_empty, None) (λ image _, (image, None))
    (Result_empty, None).

Definition env_pvc_pending : Env :=
  env_on (CreateFirstPod, 0, None)
    ({| Requeue := false; RequeueAfter := 60 |}, None)
    (λ image _, (image, None)) (Result_empty, None).

Definition env_image_unresolved : Env :=
  env_on (CreateFirstPod, 0, None) (Result_empty, None)
    (λ _ _, ("", Some "no image for ansibleTest")) (Result_empty, None).

Definition env_pod_pending : Env :=
  env_on (CreateNextPod, 0, None) (Result_empty, None)
    (λ image _, (image, None))
    ({| Requeue := false; RequeueAfter := 60 |}, None).

Definition env_negative_step : Env :=
  env_on (CreateNextPod, -1, None) (Result_empty, None)
    (λ image _, (image, None)) (Result_empty, None).

(** An instance that is Ready: every condition True. *)
Definition ready_conditions : list Condition :=
  [ with_time 40 (TrueCondition ReadyCondition ReadyMessage);
    with_time 20 (TrueCondition ServiceConfigReadyCondition ServiceConfigReadyMessage);
    with_time 30 (TrueCondition DeploymentReadyCondition DeploymentReadyMessage) ].

(** Invocations on an instance whose DeploymentReady is already True: one
    that is told to create its first pod and gets the lock, one that is told
    to end the testing and whose release is not reported. *)
Definition env_completed_first_pod : Env :=
  sample_env (Found (sample_instance (Some completed_conditions))) None
    (CreateFirstPod, 0, None) (true, None) (true, None) (Result_empty, None) None.

Definition env_completed_lock_kept : Env :=
  sample_env (Found (sample_instance (Some completed_conditions))) None
    (EndTesting, 0, None) (false, None) (true, None) (Result_empty, None) None.

(** An invocation on a Ready instance that submits a next pod, which is
    still pending. *)
Definition env_ready_next_pod : Env :=
  sample_env (Found (sample_instance (Some ready_conditions))) None
    (CreateNextPod, 0, None) (true, None) (true, None)
    ({| Requeue := false; RequeueAfter := 60 |}, None) None.

(** An invocation that is handed an action outside the five. *)
Definition env_unexpected : Env :=
  env_on (UnexpectedAction 7, 0, None) (Result_empty, None)
    (λ image _, (image, None)) (Result_empty, None).

(** * Properties *)

Section Resolver.

Implicit Types (spec : AnsibleTestSpec) (w : WorkflowStep.t).
Implicit Types (sectionName tag : string) (step : Z).

Lemma Step_FieldByName_IVal w sectionName i :
  Step_FieldByName w sectionName = Some i → ∃ v, i = IVal v.
Proof.
  unfold Step_FieldByName. repeat case_decide; try (intros [= <-]; eauto).
  destruct (WorkflowStep.Fields w !! sectionName); intros [= <-]; eauto.
Qed.

Lemma index_in_range {A} (l : list A) (i : Z) :
  0 ≤ i → i < Z.of_nat (length l) → ∃ a, index l i = Done a ∧ l !! Z.to_nat i = Some a.
Proof.
  intros H0 Hlt. unfold index. rewrite decide_True by done.
  destruct (lookup_lt_is_Some_2 l (Z.to_nat i)) as [a Ha]; [lia|].
  rewrite Ha. eauto.
Qed.

Lemma OverwriteAnsibleWithWorkflow_out_of_range spec sectionName tag step :
  Z.of_nat (length (Workflow spec)) ≤ step →
  OverwriteAnsibleWithWorkflow spec sectionName tag step
  = Value_Interface (Spec_FieldByName spec sectionName).
Proof.
  intros Hlen. unfold OverwriteAnsibleWithWorkflow.
  rewrite decide_True by lia. done.
Qed.

(** The resolver at an index that has a step, with the two field reads
    done. *)
Lemma OverwriteAnsibleWithWorkflow_in_range spec sectionName tag step w base wv :
  0 ≤ step →
  Workflow spec !! Z.to_nat step = Some w →
  Spec_FieldByName spec sectionName = Some base →
  Step_FieldByName w sectionName = Some wv →
  OverwriteAnsibleWithWorkflow spec sectionName tag step =
    if decide (tag = "pbool") then
      match wv with
      | IVal (VPBool (Some b)) => Done (IVal (VBool b))
      | _ => b ← assert_bool base; Done (IVal (VBool b))
      end
    else if decide (tag = "puint8") then
      match wv with
      | IVal (VPUint8 (Some n)) => Done (IVal (VUint8 n))
      | _ => Done base
      end
    else if decide (tag = "string") then
      match wv with
      | IVal (VString val) => if decide (val ≠ "") then Done wv else Done base
      | _ => Done base
      end
    else Done INil.
Proof.
  intros H0 Hw Hbase Hwv. unfold OverwriteAnsibleWithWorkflow.
  apply lookup_lt_Some in Hw as Hlt.
  rewrite decide_False by lia.
  rewrite Hbase. cbn. unfold index. rewrite decide_True by done.
  rewrite Hw. cbn. rewrite Hwv. cbn. done.
Qed.

End Resolver.

(** C1 (as amended).  For a field that the base spec and every step have,
    a tag among "pbool", "puint8" and "string" that names the type of the
    base field, and a step index that is not negative (the override list may
    be empty), the resolver returns without panicking a value of the base
    field's type, on which the callers' type assertion succeeds.  For a tag
    outside the three, at an index that has a step, it returns nil. *)
Theorem OverwriteAnsibleWithWorkflow_defined
    (spec : AnsibleTestSpec) (sectionName tag : string) (step : Z)
    (base : GoValue) (T : GoType) :
  Spec_FieldByName spec sectionName = Some (IVal base) →
  (∀ w, w ∈ Workflow spec → is_Some (Step_FieldByName w sectionName)) →
  0 ≤ step →
  (tag_type tag = Some T → type_of base = T →
   ∃ v, OverwriteAnsibleWithWorkflow spec sectionName tag step = Done (IVal v)
        ∧ type_of v = T
        ∧ (T = TBool → ∃ b, assert_bool (IVal v) = Done b)
        ∧ (T = TString → ∃ s, assert_string (IVal v) = Done s))
  ∧ (tag_type tag = None → step < Z.of_nat (length (Workflow spec)) →
     OverwriteAnsibleWithWorkflow spec sectionName tag step = Done INil).
Proof.
  intros Hbase Hsteps H0.
  assert (Hasserts : ∀ v, type_of v = T →
            (T = TBool → ∃ b, assert_bool (IVal v) = Done b)
            ∧ (T = TString → ∃ s, assert_string (IVal v) = Done s)).
  { intros v <-. split; destruct v; try discriminate; cbn; eauto. }
  destruct (decide (step < Z.of_nat (length (Workflow spec)))) as [Hlt|Hge].
  - destruct (index_in_range (Workflow spec) step H0 Hlt) as (w & _ & Hw).
    destruct (Hsteps w) as [wi Hwi]; [by eapply list_elem_of_lookup_2|].
    destruct (Step_FieldByName_IVal _ _ _ Hwi) as [wv ->].
    rewrite (OverwriteAnsibleWithWorkflow_in_range _ _ _ _ _ _ _ H0 Hw Hbase Hwi).
    unfold tag_type. split.
    + intros Htag Hty.
      repeat case_decide; simplify_eq; destruct base; try discriminate; cbn.
      all: destruct wv as [|[]| |[]| | | | | | | | |]; cbn; try case_decide.
      all: eexists; split_and!; [reflexivity|reflexivity|..].
      all: intros ?; try discriminate; cbn; eauto.
    + intros Htag _. by repeat case_decide.
  - split; [|lia]. intros _ Hty.
    rewrite OverwriteAnsibleWithWorkflow_out_of_range, Hbase by lia.
    exists base. split; [done|]. split; [done|]. by apply Hasserts.
Qed.

Lemma OverwriteAnsibleWithWorkflow_defined_witness :
  (∃ v, OverwriteAnsibleWithWorkflow spec_flags "Debug" "pbool" 0 = Done (IVal v)
        ∧ type_of v = TBool
        ∧ (TBool = TBool → ∃ b, assert_bool (IVal v) = Done b)
        ∧ (TBool = TString → ∃ s, assert_string (IVal v) = Done s)).
Proof.
  refine (proj1 (OverwriteAnsibleWithWorkflow_defined
                   spec_flags "Debug" "pbool" 0 (VBool true) TBool _ _ _) _ _).
  - reflexivity.
  - intros w Hw. apply list_elem_of_singleton in Hw as ->. vm_compute. eauto.
  - lia.
  - reflexivity.
  - reflexivity.
Defined.

(** C1, as stated, fails: with a tag outside the three the resolver returns
    nil at an index that has a step, which is no value of the field's type
    and makes the caller's assertion panic; and for a name that is not a
    field it panics instead of returning. *)
Lemma OverwriteAnsibleWithWorkflow_not_total :
  OverwriteAnsibleWithWorkflow spec_flags "Debug" "bool" 0 = Done INil
  ∧ (OverwriteAnsibleWithWorkflow spec_flags "Debug" "bool" 0 ≫= assert_bool)
    = Panic InterfaceConversion
  ∧ OverwriteAnsibleWithWorkflow spec_flags "NoSuchField" "string" 0
    = Panic ZeroValueInterface.
Proof. by vm_compute. Qed.

(** C2.  For every field of the base spec and every step index greater than
    or equal to the length of the override list (the empty list included),
    the resolver returns the base value of the field, whatever the tag. *)
Theorem OverwriteAnsibleWithWorkflow_beyond_overrides
    (spec : AnsibleTestSpec) (sectionName tag : string) (step : Z) (base : Interface) :
  Z.of_nat (length (Workflow spec)) ≤ step →
  Spec_FieldByName spec sectionName = Some base →
  OverwriteAnsibleWithWorkflow spec sectionName tag step = Done base.
Proof.
  intros Hlen Hbase.
  by rewrite OverwriteAnsibleWithWorkflow_out_of_range, Hbase.
Qed.

Lemma OverwriteAnsibleWithWorkflow_beyond_overrides_witness :
  OverwriteAnsibleWithWorkflow (spec_with {[ "Debug" := VBool true ]} []) "Debug" "pbool" 0
  = Done (IVal (VBool true)).
Proof.
  apply OverwriteAnsibleWithWorkflow_beyond_overrides.
  - simpl. lia.
  - reflexivity.
Defined.

(** C3.  For a string field resolved with the "string" tag: a non-empty
    override is the effective value, an empty override leaves the base value.
    In Scenario C, step 0 resolves to "custom:v2" and step 1, which has no
    override, to "default:v1". *)
Theorem OverwriteAnsibleWithWorkflow_string
    (spec : AnsibleTestSpec) (sectionName : string) (step : Z)
    (w : WorkflowStep.t) (base override : string) :
  0 ≤ step →
  Workflow spec !! Z.to_nat step = Some w →
  Spec_FieldByName spec sectionName = Some (IVal (VString base)) →
  Step_FieldByName w sectionName = Some (IVal (VString override)) →
  (override ≠ "" →
   OverwriteAnsibleWithWorkflow spec sectionName "string" step
   = Done (IVal (VString override)))
  ∧ (override = "" →
     OverwriteAnsibleWithWorkflow spec sectionName "string" step
     = Done (IVal (VString base)))
  ∧ OverwriteAnsibleWithWorkflow scenario_C "ContainerImage" "string" 0
    = Done (IVal (VString "custom:v2"))
  ∧ OverwriteAnsibleWithWorkflow scenario_C "ContainerImage" "string" 1
    = Done (IVal (VString "default:v1")).
Proof.
  intros H0 Hw Hbase Hwv.
  rewrite (OverwriteAnsibleWithWorkflow_in_range _ _ _ _ _ _ _ H0 Hw Hbase Hwv).
  rewrite !(decide_False (P := "string" = _)) by done.
  rewrite (decide_True (P := "string" = "string")) by done.
  split_and!.
  - intros Hne. by rewrite decide_True.
  - intros ->. by rewrite decide_False by (intros H; by apply H).
  - by vm_compute.
  - by vm_compute.
Qed.

Lemma OverwriteAnsibleWithWorkflow_string_witness :
  OverwriteAnsibleWithWorkflow spec_flags "ContainerImage" "string" 0
  = Done (IVal (VString "default:v1")).
Proof.
  refine (proj1 (proj2 (OverwriteAnsibleWithWorkflow_string
            spec_flags "ContainerImage" 0
            (step_with {[ "Debug" := VPBool None; "Privileged" := VPBool (Some true);
                          "ContainerImage" := VString "" ]})
            "default:v1" "" _ _ _ _)) _).
  - lia.
  - reflexivity.
  - reflexivity.
  - reflexivity.
  - reflexivity.
Defined.

(** C4.  For a boolean field resolved with the "pbool" tag: a nil override
    pointer leaves the base value, true or false as it is, and a pointer
    that is not nil gives the value it points to. *)
Theorem OverwriteAnsibleWithWorkflow_pbool
    (spec : AnsibleTestSpec) (sectionName : string) (step : Z)
    (w : WorkflowStep.t) (base : bool) (override : option bool) :
  0 ≤ step →
  Workflow spec !! Z.to_nat step = Some w →
  Spec_FieldByName spec sectionName = Some (IVal (VBool base)) →
  Step_FieldByName w sectionName = Some (IVal (VPBool override)) →
  OverwriteAnsibleWithWorkflow spec sectionName "pbool" step
  = Done (IVal (VBool (default base override))).
Proof.
  intros H0 Hw Hbase Hwv.
  rewrite (OverwriteAnsibleWithWorkflow_in_range _ _ _ _ _ _ _ H0 Hw Hbase Hwv).
  cbn. by destruct override.
Qed.

Lemma OverwriteAnsibleWithWorkflow_pbool_witness :
  OverwriteAnsibleWithWorkflow spec_flags "Debug" "pbool" 0
  = Done (IVal (VBool (default true None))).
Proof.
  apply (OverwriteAnsibleWithWorkflow_pbool spec_flags "Debug" 0
           (step_with {[ "Debug" := VPBool None; "Privileged" := VPBool (Some true);
                         "ContainerImage" := VString "" ]})).
  - lia.
  - reflexivity.
  - reflexivity.
  - reflexivity.
Defined.

(** ** The condition list *)

Section Conditions.

Implicit Types (c : Condition) (cs saved : list Condition) (t : ConditionType).

Local Arguments Conditions_Get : simpl never.

Lemma Conditions_Get_type t cs c : Conditions_Get t cs = Some c → Type_ c = t.
Proof.
  unfold Conditions_Get. intros H. apply find_some in H as [_ H].
  by apply bool_decide_eq_true in H.
Qed.

Lemma Conditions_Get_cons t x cs :
  Conditions_Get t (x :: cs) =
  if decide (Type_ x = t) then Some x else Conditions_Get t cs.
Proof. unfold Conditions_Get. cbn. by case_bool_decide; case_decide. Qed.

(** After [Set], the condition of that type is the new one, with the
    recorded time when the status is the recorded one and the current time
    otherwise. *)
Lemma Conditions_Get_Set_eq now c cs :
  Conditions_Get (Type_ c) (Conditions_Set now c cs) =
  Some (with_time
          match Conditions_Get (Type_ c) cs with
          | Some x => if decide (Status x = Status c) then LastTransitionTime x else now
          | None => now
          end c).
Proof.
  induction cs as [|x cs IH]; cbn.
  - rewrite Conditions_Get_cons. by rewrite decide_True.
  - rewrite (Conditions_Get_cons _ x). case_decide as Hx.
    + rewrite Conditions_Get_cons. rewrite decide_True by (by case_decide).
      by case_decide.
    + by rewrite Conditions_Get_cons, decide_False.
Qed.

Lemma Conditions_Get_Set_ne now c cs t :
  t ≠ Type_ c → Conditions_Get t (Conditions_Set now c cs) = Conditions_Get t cs.
Proof.
  intros Hne. induction cs as [|x cs IH]; cbn.
  - rewrite Conditions_Get_cons. by rewrite decide_False.
  - case_decide as Hx.
    + rewrite !Conditions_Get_cons.
      rewrite decide_False by (case_decide; cbn; congruence).
      by rewrite decide_False by congruence.
    + rewrite !Conditions_Get_cons. by rewrite IH.
Qed.

Lemma restore_time_fields saved c :
  Type_ (restore_time saved c) = Type_ c
  ∧ Status (restore_time saved c) = Status c
  ∧ Reason (restore_time saved c) = Reason c
  ∧ Message (restore_time saved c) = Message c
  ∧ Severity (restore_time saved c) = Severity c.
Proof.
  unfold restore_time. destruct (Conditions_Get _ saved); [case_decide|]; done.
Qed.

Lemma Conditions_Get_Restore t cs saved :
  Conditions_Get t (RestoreLastTransitionTimes cs saved)
  = restore_time saved <$> Conditions_Get t cs.
Proof.
  unfold RestoreLastTransitionTimes.
  induction cs as [|x cs IH]; [done|].
  rewrite fmap_cons, !Conditions_Get_cons.
  destruct (restore_time_fields saved x) as (-> & _).
  by case_decide.
Qed.

(** [Set] of a Ready condition leaves the first non-ready sub-condition. *)
Lemma first_non_ready_Set now c cs :
  Type_ c = ReadyCondition →
  first_non_ready (Conditions_Set now c cs) = first_non_ready cs.
Proof.
  intros Hc. unfold first_non_ready.
  induction cs as [|x cs IH]; cbn.
  - unfold non_ready. cbn. by rewrite Hc.
  - case_decide as Hx; cbn.
    + assert (non_ready x = false) as ->
        by (unfold non_ready; by rewrite bool_decide_eq_true_2 by congruence).
      by assert (non_ready (if decide (Status x = Status c)
                            then with_time (LastTransitionTime x) c
                            else with_time now c) = false) as ->
        by (unfold non_ready; case_decide; cbn;
            by rewrite bool_decide_eq_true_2 by done).
    + by rewrite IH.
Qed.

Lemma first_non_ready_Restore cs saved :
  first_non_ready (RestoreLastTransitionTimes cs saved)
  = restore_time saved <$> first_non_ready cs.
Proof.
  unfold first_non_ready, RestoreLastTransitionTimes.
  induction cs as [|x cs IH]; [done|].
  rewrite fmap_cons. cbn.
  assert (non_ready (restore_time saved x) = non_ready x) as ->.
  { unfold non_ready. by destruct (restore_time_fields saved x) as (-> & -> & _). }
  by destruct (non_ready x).
Qed.

Lemma AllSubConditionIsTrue_first_non_ready cs :
  AllSubConditionIsTrue cs = true ↔ first_non_ready cs = None.
Proof.
  unfold AllSubConditionIsTrue, first_non_ready.
  induction cs as [|x cs IH]; [done|]. cbn. unfold non_ready at 1.
  do 2 case_bool_decide; cbn; try done; by rewrite <-IH.
Qed.

End Conditions.

(** ** The deferred function on the conditions *)

Section Deferred.

Implicit Types (c : Condition) (cs saved : list Condition) (t : ConditionType).

Local Arguments Conditions_Get : simpl never.

Lemma defer_promote_sub now cs t :
  t ≠ ReadyCondition →
  Conditions_Get t (defer_promote now cs) = Conditions_Get t cs.
Proof.
  intros Ht. unfold defer_promote.
  destruct (AllSubConditionIsTrue cs); [|done].
  by rewrite Conditions_Get_Set_ne.
Qed.

Lemma defer_mirror_sub now cs t :
  t ≠ ReadyCondition →
  Conditions_Get t (defer_mirror now cs) = Conditions_Get t cs.
Proof.
  intros Ht. unfold defer_mirror, Conditions_Mirror.
  destruct (Conditions_IsUnknown _ cs); [|done].
  destruct (first_non_ready cs); [|done]. cbn.
  by rewrite Conditions_Get_Set_ne.
Qed.

(** The deferred function touches a sub-condition only to restore its
    time. *)
Lemma deferred_conditions_sub now saved cs t :
  t ≠ ReadyCondition →
  Conditions_Get t (deferred_conditions now saved cs)
  = restore_time saved <$> Conditions_Get t cs.
Proof.
  intros Ht. unfold deferred_conditions, defer_restore.
  by rewrite defer_mirror_sub, Conditions_Get_Restore, defer_promote_sub.
Qed.

Lemma deferred_conditions_sub_status now saved cs t :
  t ≠ ReadyCondition →
  status_of t (deferred_conditions now saved cs) = status_of t cs.
Proof.
  intros Ht. unfold status_of. rewrite deferred_conditions_sub by done.
  destruct (Conditions_Get t cs) as [c|]; [cbn|done].
  by destruct (restore_time_fields saved c) as (_ & -> & _).
Qed.

End Deferred.

(** ** Reconcile *)

Lemma status_of_Set_eq now c cs :
  status_of (Type_ c) (Conditions_Set now c cs) = Some (Status c).
Proof. unfold status_of. by rewrite Conditions_Get_Set_eq. Qed.

Lemma status_of_Set_ne now c cs t :
  t ≠ Type_ c → status_of t (Conditions_Set now c cs) = status_of t cs.
Proof. intros Ht. unfold status_of. by rewrite Conditions_Get_Set_ne. Qed.

Lemma Conditions_Get_Set_FalseCondition now t reason severity message args cs :
  ∃ time,
    Conditions_Get t
      (Conditions_Set now (FalseCondition t reason severity message args) cs)
    = Some (with_time time (FalseCondition t reason severity message args)).
Proof.
  eexists. exact (Conditions_Get_Set_eq now (FalseCondition t _ _ _ _) cs).
Qed.

(** Runs the statements of the body up to the next answer of the
    surroundings. *)
Ltac exec :=
  repeat progress
    (cbv beta iota zeta delta
       [Reconcile fetch Reconcile_body dispatch create_pod
        mbind Body_bind mret Body_ret emit store the_instance return_ run
        Status_Set Status_MarkTrue Status_Init init_status isNew deferred
        conditions_of default from_option id set_conditions set_spec];
     cbn [instance trace Name Spec Conditions fst snd app negb]).

(** Follows every path of the body, asking the surroundings for each
    answer. *)
Ltac explore :=
  exec;
  try match goal with
  | |- context [negb ?b] => is_var b; destruct b; explore
  | |- context [match ?o with _ => _ end] =>
      lazymatch o with
      | context [match _ with _ => _ end] => fail
      | _ => destruct o eqn:?; explore
      end
  end.

(** C5 (as amended).  On EndTesting the release of the lock is attempted
    first.  When it is not reported, the invocation logs it and requeues
    after the fixed interval with the release's error, and DeploymentReady
    stays as it was; only when the release is reported is DeploymentReady
    marked True.  So an invocation on EndTesting ends with DeploymentReady
    True and the lock held only when the release was not reported and it
    found them so. *)
Theorem Reconcile_EndTesting
    (env : Env) (obj : AnsibleTest) (cs : list Condition) (step : Z)
    (err0 rerr : option error) (lockReleased held : bool) :
  Client_Get env = Found obj →
  NewHelper env = None →
  Conditions obj = Some cs →
  NextAction env = (EndTesting, step, err0) →
  ReleaseLock env = (lockReleased, rerr) →
  let x := (Reconcile env).1 in
  let s := (Reconcile env).2 in
  let cs' := conditions_of (instance s) in
  let before :=
    [ Call_Get; Call_NewHelper;
      Call_NextAction (Z.of_nat (length (Workflow (Spec obj)))) ] in
  (if lockReleased then
     trace s = before ++
       [ Call_ReleaseLock true;
         Conditions_Write (TrueCondition DeploymentReadyCondition DeploymentReadyMessage);
         Log_Info InfoTestingCompleted;
         Call_PatchInstance (instance s) ]
     ∧ status_of DeploymentReadyCondition cs' = Some ConditionTrue
     ∧ x = Returned Result_empty (PatchInstance env)
     ∧ lock_held held (trace s) = false
   else
     trace s = before ++
       [ Call_ReleaseLock false;
         Log_Info InfoCanNotReleaseLock;
         Call_PatchInstance (instance s) ]
     ∧ status_of DeploymentReadyCondition cs' = status_of DeploymentReadyCondition cs
     ∧ x = Returned {| Requeue := false; RequeueAfter := RequeueAfterValue env |}
                    (match PatchInstance env with Some e => Some e | None => rerr end)
     ∧ lock_held held (trace s) = held)
  ∧ (status_of DeploymentReadyCondition cs' = Some ConditionTrue →
     lock_held held (trace s) = true →
     lockReleased = false
     ∧ status_of DeploymentReadyCondition cs = Some ConditionTrue
     ∧ held = true).
Proof.
  intros Hget Hhelper Hcs Hnext Hrel. destruct obj as [name spec conds].
  cbn in Hcs. subst conds.
  exec. rewrite Hget, Hhelper. exec. rewrite Hnext. exec. rewrite Hrel. exec.
  destruct lockReleased; exec.
  - rewrite deferred_conditions_sub_status by done.
    assert (Htrue := status_of_Set_eq (Now env)
              (TrueCondition DeploymentReadyCondition DeploymentReadyMessage) cs).
    split_and!; try done. by destruct (PatchInstance env).
  - rewrite deferred_conditions_sub_status by done.
    split_and!; try done.
    all: by destruct (PatchInstance env).
Qed.

Lemma Reconcile_EndTesting_witness :
  status_of DeploymentReadyCondition
    (conditions_of (instance (Reconcile env_EndTesting).2)) = Some ConditionTrue
  ∧ lock_held true (trace (Reconcile env_EndTesting).2) = false.
Proof.
  pose proof (Reconcile_EndTesting env_EndTesting
                (sample_instance (Some running_conditions))
                running_conditions 0 None None true true
                eq_refl eq_refl eq_refl eq_refl eq_refl) as [(_ & H & _ & Hl) _].
  split; assumption.
Defined.

(** C5, as stated, fails: nothing outside EndTesting ties DeploymentReady
    to the lock.  An instance whose DeploymentReady is True and that holds
    no lock, told to create its first pod, acquires the lock and submits
    the pod, and ends with DeploymentReady still True and the lock held.
    On EndTesting itself, an instance that has DeploymentReady True and
    holds the lock keeps both when the release is not reported. *)
Lemma DeploymentReady_True_lock_held :
  status_of DeploymentReadyCondition completed_conditions = Some ConditionTrue
  ∧ picked is_lock_call (trace (Reconcile env_completed_first_pod).2)
    = [Call_AcquireLock true]
  ∧ lock_held false (trace (Reconcile env_completed_first_pod).2) = true
  ∧ status_of DeploymentReadyCondition
      (conditions_of (instance (Reconcile env_completed_first_pod).2))
    = Some ConditionTrue
  ∧ lock_held true (trace (Reconcile env_completed_lock_kept).2) = true
  ∧ status_of DeploymentReadyCondition
      (conditions_of (instance (Reconcile env_completed_lock_kept).2))
    = Some ConditionTrue.
Proof.
  split_and!; by vm_compute.
Qed.

Ltac not_in_trace :=
  let H := fresh in
  intros H;
  repeat (apply elem_of_cons in H as [H|H]; [discriminate H|]);
  by apply elem_of_nil in H.

(** C7 (as amended).  When the lock is not acquired, CreateFirstPod logs the
    contention as information and CreateNextPod logs it as an error, "cannot
    confirm lock ownership", with the error of the acquisition; both requeue
    after the fixed interval, handing that error back, and neither goes on
    to create a pod. *)
Theorem Reconcile_lock_not_acquired
    (env : Env) (obj : AnsibleTest) (cs : list Condition) (step : Z)
    (err0 aerr : option error) :
  Client_Get env = Found obj →
  NewHelper env = None →
  Conditions obj = Some cs →
  AcquireLock env = (false, aerr) →
  let x := (Reconcile env).1 in
  let s := (Reconcile env).2 in
  let before :=
    [ Call_Get; Call_NewHelper;
      Call_NextAction (Z.of_nat (length (Workflow (Spec obj))));
      Call_AcquireLock false ] in
  let requeue :=
    Returned {| Requeue := false; RequeueAfter := RequeueAfterValue env |}
             (match PatchInstance env with Some e => Some e | None => aerr end) in
  (NextAction env = (CreateFirstPod, step, err0) →
   trace s = before ++
     [ Log_Info InfoCanNotAcquireLock; Call_PatchInstance (instance s) ]
   ∧ x = requeue
   ∧ (∀ e m, Log_Error e m ∉ trace s)
   ∧ (∀ p, Call_CreatePod p ∉ trace s))
  ∧ (NextAction env = (CreateNextPod, step, err0) →
     trace s = before ++
       [ Log_Error aerr ErrConfirmLockOwnership; Call_PatchInstance (instance s) ]
     ∧ x = requeue
     ∧ (∀ m, Log_Info m ∉ trace s)
     ∧ (∀ p, Call_CreatePod p ∉ trace s)).
Proof.
  intros Hget Hhelper Hcs Hacq. destruct obj as [name spec conds].
  cbn in Hcs. subst conds.
  split; intros Hnext.
  all: exec; rewrite Hget, Hhelper; exec; rewrite Hnext; exec; rewrite Hacq; exec.
  all: split_and!; try done; try (by destruct (PatchInstance env)).
  all: intros; not_in_trace.
Qed.

Lemma Reconcile_lock_not_acquired_witness :
  ((Reconcile env_first_pod_contended).1
     = Returned {| Requeue := false; RequeueAfter := 60 |} None
   ∧ (∀ e m, Log_Error e m ∉ trace (Reconcile env_first_pod_contended).2)
   ∧ (∀ p, Call_CreatePod p ∉ trace (Reconcile env_first_pod_contended).2))
  ∧ ((Reconcile env_next_pod_lock_lost).1
       = Returned {| Requeue := false; RequeueAfter := 60 |} None
     ∧ (∀ m, Log_Info m ∉ trace (Reconcile env_next_pod_lock_lost).2)
     ∧ (∀ p, Call_CreatePod p ∉ trace (Reconcile env_next_pod_lock_lost).2)).
Proof.
  split.
  - exact (proj2
      (proj1 (Reconcile_lock_not_acquired env_first_pod_contended
                (sample_instance (Some running_conditions)) running_conditions
                0 None None eq_refl eq_refl eq_refl eq_refl) eq_refl)).
  - exact (proj2
      (proj2 (Reconcile_lock_not_acquired env_next_pod_lock_lost
                (sample_instance (Some running_conditions)) running_conditions
                0 None None eq_refl eq_refl eq_refl eq_refl) eq_refl)).
Defined.

(** C7, as stated, fails: a lock that CreateNextPod does not get, with no
    error from the acquisition, ends the invocation as on CreateFirstPod,
    with a requeue after the fixed interval and no error.  What sets the two
    apart is the log entry only. *)
Lemma CreateNextPod_lock_lost_requeues :
  AcquireLock env_next_pod_lock_lost = (false, None)
  ∧ NextAction env_next_pod_lock_lost = (CreateNextPod, 0, None)
  ∧ (Reconcile env_next_pod_lock_lost).1
    = Returned {| Requeue := false; RequeueAfter := 60 |} None
  ∧ (Reconcile env_first_pod_contended).1
    = Returned {| Requeue := false; RequeueAfter := 60 |} None.
Proof. split_and!; by vm_compute. Qed.

(** C9.  For an instance whose condition list is nil, Reconcile records
    Ready, ServiceConfigReady and DeploymentReady as Unknown and returns at
    once with an empty result and no error but that of the status patch; it
    asks for no action, touches no lock, ensures no volume claim and creates
    no pod. *)
Theorem Reconcile_first_seen (env : Env) (obj : AnsibleTest) :
  Client_Get env = Found obj →
  NewHelper env = None →
  Conditions obj = None →
  let x := (Reconcile env).1 in
  let s := (Reconcile env).2 in
  let cs' := conditions_of (instance s) in
  status_of ReadyCondition cs' = Some ConditionUnknown
  ∧ status_of ServiceConfigReadyCondition cs' = Some ConditionUnknown
  ∧ status_of DeploymentReadyCondition cs' = Some ConditionUnknown
  ∧ x = Returned Result_empty (PatchInstance env)
  ∧ (PatchInstance env = None → x = Returned Result_empty None)
  ∧ trace s =
      [ Call_Get; Call_NewHelper;
        Conditions_InitWrite
          [ UnknownCondition ReadyCondition InitReason ReadyInitMessage;
            UnknownCondition ServiceConfigReadyCondition InitReason
              ServiceConfigReadyMessage;
            UnknownCondition DeploymentReadyCondition InitReason
              DeploymentReadyInitMessage ];
        Call_PatchInstance (instance s) ]
  ∧ (∀ b, Call_AcquireLock b ∉ trace s)
  ∧ (∀ l c, Call_EnsureLogsPVCExists l c ∉ trace s)
  ∧ (∀ p, Call_CreatePod p ∉ trace s).
Proof.
  intros Hget Hhelper Hcs. destruct obj as [name spec conds].
  cbn in Hcs. subst conds.
  exec. rewrite Hget, Hhelper. exec.
  generalize (Now env). intros now.
  split_and!; try (by vm_compute); try (by destruct (PatchInstance env)).
  all: intros; not_in_trace.
Qed.

Lemma Reconcile_first_seen_witness :
  status_of DeploymentReadyCondition
    (conditions_of (instance (Reconcile env_first_seen).2)) = Some ConditionUnknown
  ∧ (Reconcile env_first_seen).1 = Returned Result_empty None.
Proof.
  pose proof (Reconcile_first_seen env_first_seen (sample_instance None)
                eq_refl eq_refl eq_refl) as (_ & _ & H & _ & Hx & _).
  split; [exact H | exact (Hx eq_refl)].
Defined.

(** Reads off a membership in a trace that is written out. *)
Ltac in_trace H :=
  repeat (apply elem_of_cons in H as [H|H]; [try discriminate H|]);
  try (by apply elem_of_nil in H).

Lemma ApplyStepOverrides_Done spec step spec' w :
  ApplyStepOverrides spec step = Done spec' →
  Workflow spec !! Z.to_nat step = Some w →
  NodeSelector spec' = default (NodeSelector spec) (WorkflowStep.NodeSelector w)
  ∧ Tolerations spec' = default (Tolerations spec) (WorkflowStep.Tolerations w)
  ∧ SELinuxLevel spec' = default (SELinuxLevel spec) (WorkflowStep.SELinuxLevel w)
  ∧ Resources spec' = default (Resources spec) (WorkflowStep.Resources w)
  ∧ StorageClass spec' = StorageClass spec
  ∧ Workflow spec' = Workflow spec
  ∧ Fields spec' = Fields spec.
Proof.
  intros Hdone Hw. apply lookup_lt_Some in Hw as Hlt.
  unfold ApplyStepOverrides, index in Hdone.
  destruct (decide (step < Z.of_nat (length (Workflow spec)))) as [Hin|Hout].
  - destruct (decide (0 ≤ step)); [|done].
    rewrite Hw in Hdone. cbn in Hdone. injection Hdone as <-.
    by destruct (WorkflowStep.NodeSelector w), (WorkflowStep.Tolerations w),
         (WorkflowStep.SELinuxLevel w), (WorkflowStep.Resources w).
  - lia.
Qed.

(** C10.  When Reconcile builds the pod for a step of the workflow, the
    instance handed to the builder, which is the instance Reconcile ends
    with, has NodeSelector, Tolerations, SELinuxLevel and Resources of its
    base spec replaced by the step's value wherever the step has one (so they
    differ from the original whenever the override does); every other field
    of the spec is as it was fetched. *)
Theorem Reconcile_step_overrides
    (env : Env) (obj : AnsibleTest) (p : PodArgs) (w : WorkflowStep.t) (step : Z) :
  Client_Get env = Found obj →
  (NextAction env).1.2 = step →
  Call_Pod p ∈ trace (Reconcile env).2 →
  Workflow (Spec obj) !! Z.to_nat step = Some w →
  let base := Spec obj in
  let built := Spec (pod_instance p) in
  Spec (instance (Reconcile env).2) = built
  ∧ NodeSelector built = default (NodeSelector base) (WorkflowStep.NodeSelector w)
  ∧ Tolerations built = default (Tolerations base) (WorkflowStep.Tolerations w)
  ∧ SELinuxLevel built = default (SELinuxLevel base) (WorkflowStep.SELinuxLevel w)
  ∧ Resources built = default (Resources base) (WorkflowStep.Resources w)
  ∧ (∀ v, WorkflowStep.NodeSelector w = Some v → v ≠ NodeSelector base →
          NodeSelector built ≠ NodeSelector base)
  ∧ (∀ v, WorkflowStep.Tolerations w = Some v → v ≠ Tolerations base →
          Tolerations built ≠ Tolerations base)
  ∧ (∀ v, WorkflowStep.SELinuxLevel w = Some v → v ≠ SELinuxLevel base →
          SELinuxLevel built ≠ SELinuxLevel base)
  ∧ (∀ v, WorkflowStep.Resources w = Some v → v ≠ Resources base →
          Resources built ≠ Resources base)
  ∧ StorageClass built = StorageClass base
  ∧ Workflow built = Workflow base
  ∧ Fields built = Fields base.
Proof.
  intros Hget Hstep Hpod Hw.
  assert (ApplyStepOverrides (Spec obj) step = Done (Spec (pod_instance p))
          ∧ Spec (instance (Reconcile env).2) = Spec (pod_instance p)) as [Hdone Hend].
  { clear Hw. revert Hstep Hpod. destruct obj as [name spec conds].
    exec. rewrite Hget. explore; intros Hstep Hpod; in_trace Hpod.
    all: injection Hpod as ->; cbn in *; by subst. }
  destruct (ApplyStepOverrides_Done _ _ _ _ Hdone Hw)
    as (Hn & Ht & Hl & Hr & Hs & Hwf & Hf).
  cbn zeta. rewrite Hn, Ht, Hl, Hr.
  split_and!; try done; by intros v ->.
Qed.

Lemma elem_of_pods_built p tr : p ∈ pods_built tr → Call_Pod p ∈ tr.
Proof.
  unfold pods_built. rewrite list_elem_of_omap.
  intros ([] & Hin & Heq); by simplify_eq.
Qed.

Lemma elem_of_pods_submitted p tr : p ∈ pods_submitted tr → Call_CreatePod p ∈ tr.
Proof.
  unfold pods_submitted. rewrite list_elem_of_omap.
  intros ([] & Hin & Heq); by simplify_eq.
Qed.

Lemma Reconcile_step_overrides_witness :
  NodeSelector (Spec (pod_instance sample_pod)) = {[ "zone" := "a" ]}
  ∧ SELinuxLevel (Spec (pod_instance sample_pod)) = "s0:c1,c2"
  ∧ Tolerations (Spec (pod_instance sample_pod)) = [].
Proof.
  assert (Hp : Call_Pod sample_pod ∈ trace (Reconcile env_pod_created).2)
    by (apply elem_of_pods_built; vm_compute; apply list_elem_of_here).
  pose proof (Reconcile_step_overrides env_pod_created
                (sample_instance (Some running_conditions)) sample_pod sample_step 0
                eq_refl eq_refl Hp eq_refl) as (_ & Hn & Ht & Hl & _).
  split_and!; [exact Hn | exact Hl | exact Ht].
Defined.

(** C8 (as amended).  Whenever the submission of the pod returns an error,
    the release of the lock is attempted next.  When the release is
    reported, DeploymentReady is set to False with reason Error and the
    message of the submission error, and the submission's result and error
    are returned (the error of the status patch, should that fail).  When the
    release is not reported, Reconcile returns at once with an empty result
    and DeploymentReady is left as it was fetched. *)
Theorem Reconcile_CreatePod_error
    (env : Env) (obj : AnsibleTest) (p : PodArgs) (result : ctrl_Result)
    (e : error) (lockReleased : bool) (rerr : option error) :
  Client_Get env = Found obj →
  Call_CreatePod p ∈ trace (Reconcile env).2 →
  CreatePod env = (result, Some e) →
  ReleaseLock env = (lockReleased, rerr) →
  let x := (Reconcile env).1 in
  let s := (Reconcile env).2 in
  let cs' := conditions_of (instance s) in
  (∃ before after,
     trace s = before ++ Call_CreatePod p :: Call_ReleaseLock lockReleased :: after
     ∧ ∀ b, Call_ReleaseLock b ∉ before)
  ∧ (if lockReleased then
       (∃ c, Conditions_Get DeploymentReadyCondition cs' = Some c
             ∧ Status c = ConditionFalse
             ∧ Reason c = ErrorReason
             ∧ Severity c = SeverityWarning
             ∧ Message c = (DeploymentReadyErrorMessage, [e]))
       ∧ x = Returned result (Some (default e (PatchInstance env)))
     else
       status_of DeploymentReadyCondition cs'
         = status_of DeploymentReadyCondition (conditions_of obj)
       ∧ ∃ err, x = Returned Result_empty err).
Proof.
  intros Hget Hpod Hcreate Hrel. revert Hpod.
  destruct obj as [name spec conds].
  exec. rewrite Hget.
  explore; intros Hpod; in_trace Hpod.
  all: injection Hpod as ->; simplify_eq.
  all: split;
    [ eexists [_; _; _; _; _; _; _; _; _; _], _; split; [reflexivity|];
      intros; not_in_trace | ].
  all: try (split; [|destruct (PatchInstance env); eauto]).
  all: rewrite ?deferred_conditions_sub_status by done.
  all: rewrite ?deferred_conditions_sub by done.
  all: try by rewrite !status_of_Set_ne by done.
  all: match goal with
       | |- context [Conditions_Set ?now (FalseCondition ?t ?r ?sv ?m ?a) ?cs] =>
           destruct (Conditions_Get_Set_FalseCondition now t r sv m a cs) as [time ->]
       end.
  all: eexists; split; [reflexivity|].
  all: match goal with
       | |- context [restore_time ?saved ?c] =>
           by destruct (restore_time_fields saved c) as (_ & -> & -> & -> & ->)
       end.
Qed.

Lemma Reconcile_CreatePod_error_witness :
  (Reconcile env_submission_fails).1
  = Returned Result_empty (Some "pods is forbidden")
  ∧ ∃ c, Conditions_Get DeploymentReadyCondition
           (conditions_of (instance (Reconcile env_submission_fails).2)) = Some c
         ∧ Status c = ConditionFalse
         ∧ Reason c = ErrorReason
         ∧ Severity c = SeverityWarning
         ∧ Message c = (DeploymentReadyErrorMessage, ["pods is forbidden"]).
Proof.
  assert (Hp : Call_CreatePod sample_pod ∈ trace (Reconcile env_submission_fails).2)
    by (apply elem_of_pods_submitted; vm_compute; apply list_elem_of_here).
  pose proof (Reconcile_CreatePod_error env_submission_fails
                (sample_instance (Some running_conditions)) sample_pod Result_empty
                "pods is forbidden" true None eq_refl Hp eq_refl eq_refl)
    as (_ & Hc & Hx).
  split; [exact Hx | exact Hc].
Defined.

(** C8, as stated, fails: here the submission returns an error and the
    release of the lock is not reported; DeploymentReady stays Unknown and
    Reconcile returns no error at all. *)
Lemma CreatePod_fails_release_unreported :
  Call_CreatePod sample_pod ∈ trace (Reconcile env_submission_fails_lock_kept).2
  ∧ CreatePod env_submission_fails_lock_kept = (Result_empty, Some "pods is forbidden")
  ∧ status_of DeploymentReadyCondition
      (conditions_of (instance (Reconcile env_submission_fails_lock_kept).2))
    = Some ConditionUnknown
  ∧ (Reconcile env_submission_fails_lock_kept).1 = Returned Result_empty None.
Proof.
  split; [|by vm_compute].
  apply elem_of_pods_submitted. vm_compute. apply list_elem_of_here.
Qed.

(** ** The deferred function, step by step *)

Section DeferredSteps.

Implicit Types (c : Condition) (cs saved : list Condition) (t : ConditionType).

Local Arguments Conditions_Get : simpl never.

Lemma status_of_Restore t cs saved :
  status_of t (RestoreLastTransitionTimes cs saved) = status_of t cs.
Proof.
  unfold status_of. rewrite Conditions_Get_Restore.
  destruct (Conditions_Get t cs) as [c|]; [cbn|done].
  by destruct (restore_time_fields saved c) as (_ & -> & _).
Qed.

Lemma Conditions_IsUnknown_status t cs :
  Conditions_IsUnknown t cs =
  match status_of t cs with
  | Some st => bool_decide (st = ConditionUnknown)
  | None => true
  end.
Proof. unfold Conditions_IsUnknown, status_of. by destruct (Conditions_Get t cs). Qed.

Lemma first_non_ready_Some cs f :
  first_non_ready cs = Some f →
  Type_ f ≠ ReadyCondition ∧ Status f ≠ ConditionTrue.
Proof.
  intros H. apply find_some in H as [_ H]. unfold non_ready in H.
  apply andb_true_iff in H as [H1 H2].
  apply negb_true_iff, bool_decide_eq_false in H1, H2. done.
Qed.

(** (a), one way: all sub-conditions True, so Ready is True afterwards. *)
Lemma deferred_promotes now saved cs :
  AllSubConditionIsTrue cs = true →
  status_of ReadyCondition (deferred_conditions now saved cs) = Some ConditionTrue.
Proof.
  intros Hall. unfold deferred_conditions, defer_restore, defer_promote.
  rewrite Hall.
  assert (Hst : status_of ReadyCondition
                  (RestoreLastTransitionTimes
                     (Conditions_Set now (TrueCondition ReadyCondition ReadyMessage) cs)
                     saved) = Some ConditionTrue).
  { rewrite status_of_Restore.
    exact (status_of_Set_eq now (TrueCondition ReadyCondition ReadyMessage) cs). }
  unfold defer_mirror. rewrite Conditions_IsUnknown_status, Hst.
  by rewrite bool_decide_eq_false_2.
Qed.

(** (a), the other way: not all sub-conditions True, so Ready is True
    afterwards only if it was before. *)
Lemma deferred_does_not_promote now saved cs :
  AllSubConditionIsTrue cs = false →
  status_of ReadyCondition (deferred_conditions now saved cs) = Some ConditionTrue →
  status_of ReadyCondition cs = Some ConditionTrue.
Proof.
  intros Hall. unfold deferred_conditions, defer_restore, defer_promote.
  rewrite Hall. unfold defer_mirror, Conditions_Mirror.
  destruct (Conditions_IsUnknown _ _); [|by rewrite status_of_Restore].
  destruct (first_non_ready _) as [f|] eqn:Hf; cbn; [|by rewrite status_of_Restore].
  apply first_non_ready_Some in Hf as [_ Hf].
  match goal with
  | |- context [Conditions_Set now ?m ?l] =>
      pose proof (status_of_Set_eq now m l) as Hm
  end.
  cbn in Hm. rewrite Hm. by intros [= ?].
Qed.

(** (b): a condition whose status is the saved one has the saved time,
    provided the body left Ready as it was saved. *)
Lemma deferred_restores now saved cs t c c0 :
  (∀ r, Conditions_Get ReadyCondition saved = Some r →
        Conditions_Get ReadyCondition cs = Some r) →
  Conditions_Get t (deferred_conditions now saved cs) = Some c →
  Conditions_Get t saved = Some c0 →
  Status c = Status c0 →
  LastTransitionTime c = LastTransitionTime c0.
Proof.
  intros HReady Hc Hc0 Hst.
  assert (Hrestored : ∀ c1, Type_ c1 = t → Status c1 = Status c0 →
            LastTransitionTime (restore_time saved c1) = LastTransitionTime c0).
  { intros c1 <- Hst1. unfold restore_time. rewrite Hc0.
    by rewrite decide_True. }
  destruct (decide (t = ReadyCondition)) as [->|Ht].
  - specialize (HReady _ Hc0).
    unfold deferred_conditions, defer_restore in Hc.
    assert (Hpromoted : ∃ r1,
              Conditions_Get ReadyCondition (defer_promote now cs) = Some r1
              ∧ (Status r1 = Status c0 ∨ Status r1 = ConditionTrue)).
    { unfold defer_promote. destruct (AllSubConditionIsTrue cs).
      - eexists. split;
          [exact (Conditions_Get_Set_eq now (TrueCondition ReadyCondition ReadyMessage) cs)|].
        by right.
      - exists c0. split; [done|by left]. }
    destruct Hpromoted as (r1 & Hr1 & Hst1).
    pose proof (Conditions_Get_type _ _ _ Hr1) as Hty1.
    pose proof (Conditions_Get_Restore ReadyCondition (defer_promote now cs) saved) as Hr2.
    rewrite Hr1 in Hr2. cbn in Hr2.
    destruct (restore_time_fields saved r1) as (_ & Hst2 & _).
    unfold defer_mirror, Conditions_Mirror in Hc.
    rewrite Conditions_IsUnknown_status in Hc. unfold status_of in Hc.
    rewrite Hr2 in Hc. cbn in Hc.
    case_bool_decide as Hunk.
    + destruct (first_non_ready _) as [f|]; cbn in Hc.
      * match type of Hc with
        | Conditions_Get _ (Conditions_Set now ?m ?l) = _ =>
            pose proof (Conditions_Get_Set_eq now m l) as Hm
        end.
        cbn [Type_] in Hm. rewrite Hm in Hc. rewrite Hr2 in Hc.
        injection Hc as <-. cbn in Hst. cbn.
        destruct Hst1 as [Hst1|Hst1]; [|congruence].
        rewrite decide_True by congruence.
        apply Hrestored; [done|]. congruence.
      * rewrite Hr2 in Hc. injection Hc as <-.
        apply Hrestored; [done|]. congruence.
    + rewrite Hr2 in Hc. injection Hc as <-.
      apply Hrestored; [done|]. congruence.
  - rewrite deferred_conditions_sub in Hc by done.
    destruct (Conditions_Get t cs) as [c1|] eqn:Hc1; [|done].
    injection Hc as <-.
    destruct (restore_time_fields saved c1) as (_ & Hst1 & _).
    apply Hrestored; [by eapply Conditions_Get_type|congruence].
Qed.

(** (c): while Ready is unknown, it takes the reason and the message of the
    first sub-condition that is not True. *)
Lemma deferred_mirrors now saved cs :
  AllSubConditionIsTrue cs = false →
  Conditions_IsUnknown ReadyCondition cs = true →
  ∃ f r, first_non_ready cs = Some f
         ∧ Conditions_Get ReadyCondition (deferred_conditions now saved cs) = Some r
         ∧ Reason r = Reason f
         ∧ Message r = Message f.
Proof.
  intros Hall Hunk.
  destruct (first_non_ready cs) as [f|] eqn:Hf;
    [|apply AllSubConditionIsTrue_first_non_ready in Hf; congruence].
  unfold deferred_conditions, defer_restore, defer_promote. rewrite Hall.
  unfold defer_mirror, Conditions_Mirror.
  rewrite Conditions_IsUnknown_status, status_of_Restore,
    <-Conditions_IsUnknown_status, Hunk.
  rewrite first_non_ready_Restore, Hf. cbn.
  match goal with
  | |- context [Conditions_Set now ?m ?l] =>
      pose proof (Conditions_Get_Set_eq now m l) as Hm
  end.
  cbn [Type_] in Hm.
  eexists f, _. split; [done|]. split; [exact Hm|].
  cbn. by destruct (restore_time_fields saved f) as (_ & _ & -> & -> & _).
Qed.

(** The deferred function never takes Ready back from True. *)
Lemma deferred_keeps_Ready_True now saved cs :
  status_of ReadyCondition cs = Some ConditionTrue →
  status_of ReadyCondition (deferred_conditions now saved cs) = Some ConditionTrue.
Proof.
  intros Htrue.
  destruct (AllSubConditionIsTrue cs) eqn:Hall; [by apply deferred_promotes|].
  unfold deferred_conditions, defer_restore, defer_promote. rewrite Hall.
  unfold defer_mirror.
  rewrite Conditions_IsUnknown_status, status_of_Restore, Htrue.
  rewrite bool_decide_eq_false_2 by done. by rewrite status_of_Restore.
Qed.

End DeferredSteps.

(** ** Every exit goes through the deferred function *)

(** The body of a running instance never writes the Ready condition. *)
Lemma Reconcile_body_keeps_Ready env obj tr x s0 :
  Reconcile_body env false {| instance := obj; trace := tr |} = Stop x s0 →
  Conditions_Get ReadyCondition (conditions_of (instance s0))
  = Conditions_Get ReadyCondition (conditions_of obj).
Proof.
  revert x s0. destruct obj as [name spec conds].
  explore; intros ? ? [= <- <-]; cbn [instance Conditions].
  all: by rewrite ?Conditions_Get_Set_ne by done.
Qed.

(** The body of a first-seen instance leaves Ready unknown. *)
Lemma Reconcile_body_first_seen env obj tr x s0 :
  Reconcile_body env true {| instance := set_conditions [] obj; trace := tr |}
  = Stop x s0 →
  status_of ReadyCondition (conditions_of (instance s0)) = Some ConditionUnknown.
Proof.
  exec. intros [= <- <-]. cbn [instance Conditions].
  generalize (Now env). intros now. by vm_compute.
Qed.

Lemma Reconcile_found env obj :
  Client_Get env = Found obj →
  NewHelper env = None →
  ∃ x0 s0,
    Reconcile_body env (isNew obj)
      (init_status {| instance := obj; trace := [Call_Get; Call_NewHelper] |})
    = Stop x0 s0
    ∧ Reconcile env = deferred env (conditions_of obj) x0 s0.
Proof.
  intros Hget Hhelper.
  destruct (Reconcile_body env (isNew obj)
              (init_status {| instance := obj; trace := [Call_Get; Call_NewHelper] |}))
    as [[]|x0 s0] eqn:Hbody.
  exists x0, s0. split; [done|].
  unfold Reconcile, fetch.
  cbv beta iota zeta delta [mbind Body_bind mret Body_ret emit store return_].
  rewrite Hget, Hhelper. cbn [instance trace app]. rewrite Hbody.
  by destruct obj as [name spec [conds|]].
Qed.

(** C6 (as amended).  Every exit of Reconcile after the instance was fetched
    and the helper created, a panic included, goes through the deferred
    function, which ends with the status patch.  (a) It sets Ready to True
    when all sub-conditions are True and not otherwise: Ready is True
    afterwards exactly when all sub-conditions are True or Ready was True
    when the instance was fetched.  (b) Every condition whose status is the
    one of the snapshot taken before the body has the time of the snapshot;
    the deferred function restores that time whatever time the body left on
    the condition.  (c) While Ready is unknown and some sub-condition is not
    True, Ready takes the reason and the message of the first such
    sub-condition. *)
Theorem Reconcile_deferred_status_patch (env : Env) (obj : AnsibleTest) :
  Client_Get env = Found obj →
  NewHelper env = None →
  let saved := conditions_of obj in
  (∃ x0 s0,
     Reconcile_body env (isNew obj)
       (init_status {| instance := obj; trace := [Call_Get; Call_NewHelper] |})
     = Stop x0 s0
     ∧ Reconcile env = deferred env saved x0 s0
     ∧ let cs0 := conditions_of (instance s0) in
       let s := (Reconcile env).2 in
       let cs := conditions_of (instance s) in
       cs = deferred_conditions (Now env) saved cs0
       ∧ trace s = trace s0 ++ [Call_PatchInstance (instance s)]
       ∧ (status_of ReadyCondition cs = Some ConditionTrue ↔
          AllSubConditionIsTrue cs0 = true
          ∨ status_of ReadyCondition saved = Some ConditionTrue)
       ∧ (∀ t c c0,
            Conditions_Get t cs = Some c →
            Conditions_Get t saved = Some c0 →
            Status c = Status c0 →
            LastTransitionTime c = LastTransitionTime c0)
       ∧ (AllSubConditionIsTrue cs0 = false →
          Conditions_IsUnknown ReadyCondition cs0 = true →
          ∃ f r, first_non_ready cs0 = Some f
                 ∧ Conditions_Get ReadyCondition cs = Some r
                 ∧ Reason r = Reason f
                 ∧ Message r = Message f))
  ∧ (∀ (x1 : Exit) (s1 : State) t c c0,
       (∀ r, Conditions_Get ReadyCondition saved = Some r →
             Conditions_Get ReadyCondition (conditions_of (instance s1)) = Some r) →
       Conditions_Get t (conditions_of (instance (deferred env saved x1 s1).2)) = Some c →
       Conditions_Get t saved = Some c0 →
       Status c = Status c0 →
       LastTransitionTime c = LastTransitionTime c0).
Proof.
  intros Hget Hhelper saved. subst saved. split.
  - destruct (Reconcile_found env obj Hget Hhelper) as (x0 & s0 & Hbody & ->).
    exists x0, s0. split; [done|]. split; [done|]. cbn zeta.
    unfold deferred.
    cbn [snd instance trace set_conditions conditions_of Conditions default
         from_option id].
    assert (HReady :
      (isNew obj = false
       ∧ Conditions_Get ReadyCondition (conditions_of (instance s0))
         = Conditions_Get ReadyCondition (conditions_of obj))
      ∨ (conditions_of obj = []
         ∧ status_of ReadyCondition (conditions_of (instance s0))
           = Some ConditionUnknown)).
    { unfold init_status in Hbody. cbn [instance trace] in Hbody.
      destruct (isNew obj) eqn:Hnew.
      - right. split; [by destruct obj as [? ? []]|].
        by eapply Reconcile_body_first_seen.
      - left. split; [done|]. by eapply Reconcile_body_keeps_Ready. }
    split_and!.
    + done.
    + done.
    + split.
      * intros Htrue.
        destruct (AllSubConditionIsTrue (conditions_of (instance s0))) eqn:Hall;
          [by left|right].
        apply deferred_does_not_promote in Htrue; [|done].
        destruct HReady as [[_ HReady]|[_ HReady]].
        -- unfold status_of in *. by rewrite <-HReady.
        -- congruence.
      * intros [Hall|Hsaved]; [by apply deferred_promotes|].
        apply deferred_keeps_Ready_True.
        destruct HReady as [[_ HReady]|[HReady _]].
        -- unfold status_of in *. by rewrite HReady.
        -- by rewrite HReady in Hsaved.
    + intros t c c0. apply deferred_restores.
      destruct HReady as [[_ HReady]|[HReady _]].
      * intros r Hr. by rewrite HReady.
      * rewrite HReady. by intros r [=].
    + apply deferred_mirrors.
  - intros x1 s1 t c c0 HReady. unfold deferred.
    cbn [snd instance trace set_conditions conditions_of Conditions default
         from_option id].
    by apply deferred_restores.
Qed.

Lemma Reconcile_deferred_status_patch_witness :
  status_of ReadyCondition (conditions_of (instance (Reconcile env_EndTesting).2))
  = Some ConditionTrue.
Proof.
  destruct (Reconcile_deferred_status_patch env_EndTesting
              (sample_instance (Some running_conditions)) eq_refl eq_refl)
    as [(x0 & s0 & Hbody & _ & _ & _ & Hpromote & _) _].
  apply Hpromote. left.
  vm_compute in Hbody. injection Hbody as _ <-. reflexivity.
Defined.

(** C6, as stated, fails in two ways.  The exits taken before the deferred
    function is set up run no status patch: when the helper cannot be
    created the instance is left with all its sub-conditions True and Ready
    not True, and when the instance is not found nothing is patched either.
    And Ready is not taken back: an instance that is Ready and submits a
    next pod, which is pending, ends with DeploymentReady False and Ready
    still True. *)
Lemma Reconcile_Ready_not_consistent :
  (∀ o, Call_PatchInstance o ∉ trace (Reconcile env_helper_fails).2)
  ∧ AllSubConditionIsTrue (conditions_of (instance (Reconcile env_helper_fails).2)) = true
  ∧ status_of ReadyCondition (conditions_of (instance (Reconcile env_helper_fails).2))
    = Some ConditionUnknown
  ∧ (∀ o, Call_PatchInstance o ∉ trace (Reconcile env_not_found).2)
  ∧ status_of DeploymentReadyCondition
      (conditions_of (instance (Reconcile env_ready_next_pod).2))
    = Some ConditionFalse
  ∧ AllSubConditionIsTrue (conditions_of (instance (Reconcile env_ready_next_pod).2))
    = false
  ∧ status_of ReadyCondition
      (conditions_of (instance (Reconcile env_ready_next_pod).2))
    = Some ConditionTrue.
Proof.
  split_and!; try (by vm_compute).
  - intros o. vm_compute. not_in_trace.
  - intros o. vm_compute. not_in_trace.
Qed.

(** * Further properties *)

(** ** The resolver at its edges *)

(** X1.  With the "puint8" tag a pointer that is not nil gives the number
    it points to; a nil pointer gives the base value as it is, of whatever
    type, without any assertion on it. *)
Theorem OverwriteAnsibleWithWorkflow_puint8
    (spec : AnsibleTestSpec) (sectionName : string) (step : Z)
    (w : WorkflowStep.t) (base : Interface) (override : option Z) :
  0 ≤ step →
  Workflow spec !! Z.to_nat step = Some w →
  Spec_FieldByName spec sectionName = Some base →
  Step_FieldByName w sectionName = Some (IVal (VPUint8 override)) →
  OverwriteAnsibleWithWorkflow spec sectionName "puint8" step
  = Done (from_option (λ n, IVal (VUint8 n)) base override).
Proof.
  intros H0 Hw Hbase Hwv.
  rewrite (OverwriteAnsibleWithWorkflow_in_range _ _ _ _ _ _ _ H0 Hw Hbase Hwv).
  cbn. by destruct override.
Qed.

Lemma OverwriteAnsibleWithWorkflow_puint8_witness :
  OverwriteAnsibleWithWorkflow spec_numeric "Retries" "puint8" 0
  = Done (IVal (VUint8 5))
  ∧ OverwriteAnsibleWithWorkflow spec_numeric "Retries" "puint8" 1
    = Done (IVal (VUint8 3)).
Proof.
  split.
  - apply (OverwriteAnsibleWithWorkflow_puint8 spec_numeric "Retries" 0
             (step_with {[ "Retries" := VPUint8 (Some 5);
                           "ContainerImage" := VPString (Some "custom:v2");
                           "Label" := VPBool None ]})
             (IVal (VUint8 3)) (Some 5)); [lia|reflexivity..].
  - apply (OverwriteAnsibleWithWorkflow_puint8 spec_numeric "Retries" 1
             (step_with {[ "Retries" := VPUint8 None;
                           "ContainerImage" := VString "";
                           "Label" := VPBool None ]})
             (IVal (VUint8 3)) None); [lia|reflexivity..].
Defined.

(** X2.  A name that is not a field of the base spec makes the resolver
    panic, for every tag and every step index: the base field is read on
    both branches before anything else. *)
Theorem OverwriteAnsibleWithWorkflow_unknown_field
    (spec : AnsibleTestSpec) (sectionName tag : string) (step : Z) :
  Spec_FieldByName spec sectionName = None →
  OverwriteAnsibleWithWorkflow spec sectionName tag step = Panic ZeroValueInterface.
Proof.
  intros Hnone. unfold OverwriteAnsibleWithWorkflow. rewrite Hnone.
  by case_decide.
Qed.

Lemma OverwriteAnsibleWithWorkflow_unknown_field_witness :
  OverwriteAnsibleWithWorkflow spec_numeric "Debug" "pbool" 7 = Panic ZeroValueInterface.
Proof.
  apply OverwriteAnsibleWithWorkflow_unknown_field. reflexivity.
Defined.

(** X3.  A negative step index never resolves: the guard lets it through to
    the slice access, which panics (after the read of the base field, which
    panics first when the name is not a field). *)
Theorem OverwriteAnsibleWithWorkflow_negative_step
    (spec : AnsibleTestSpec) (sectionName tag : string) (step : Z) :
  step < 0 →
  OverwriteAnsibleWithWorkflow spec sectionName tag step =
    match Spec_FieldByName spec sectionName with
    | Some _ => Panic IndexOutOfRange
    | None => Panic ZeroValueInterface
    end.
Proof.
  intros Hneg. unfold OverwriteAnsibleWithWorkflow.
  rewrite decide_False by lia.
  destruct (Spec_FieldByName spec sectionName); [|done].
  cbn. unfold index. by rewrite decide_False by lia.
Qed.

Lemma OverwriteAnsibleWithWorkflow_negative_step_witness :
  OverwriteAnsibleWithWorkflow (spec_with {[ "Debug" := VBool true ]} [])
    "Debug" "pbool" (-1) = Panic IndexOutOfRange.
Proof.
  exact (OverwriteAnsibleWithWorkflow_negative_step
           (spec_with {[ "Debug" := VBool true ]} []) "Debug" "pbool" (-1) eq_refl).
Defined.

(** X4.  Under the "string" and "puint8" tags an override whose type is not
    the one the tag looks for is passed over without a word: the result is
    the base value, even when the override holds a value. *)
Theorem OverwriteAnsibleWithWorkflow_override_of_other_type
    (spec : AnsibleTestSpec) (sectionName tag : string) (step : Z)
    (w : WorkflowStep.t) (base : Interface) (override : GoValue) (T : GoType) :
  0 ≤ step →
  Workflow spec !! Z.to_nat step = Some w →
  Spec_FieldByName spec sectionName = Some base →
  Step_FieldByName w sectionName = Some (IVal override) →
  tag = "string" ∨ tag = "puint8" →
  tag_override_type tag = Some T →
  type_of override ≠ T →
  OverwriteAnsibleWithWorkflow spec sectionName tag step = Done base.
Proof.
  intros H0 Hw Hbase Hwv Htag HT Hty.
  rewrite (OverwriteAnsibleWithWorkflow_in_range _ _ _ _ _ _ _ H0 Hw Hbase Hwv).
  unfold tag_override_type in HT.
  destruct Htag as [-> | ->]; cbn in HT; injection HT as <-; cbn.
  all: by destruct override as [| | |[]| | | | | | | | |].
Qed.

Lemma OverwriteAnsibleWithWorkflow_override_of_other_type_witness :
  OverwriteAnsibleWithWorkflow spec_numeric "ContainerImage" "string" 0
  = Done (IVal (VString "default:v1")).
Proof.
  apply (OverwriteAnsibleWithWorkflow_override_of_other_type spec_numeric
           "ContainerImage" "string" 0
           (step_with {[ "Retries" := VPUint8 (Some 5);
                         "ContainerImage" := VPString (Some "custom:v2");
                         "Label" := VPBool None ]})
           (IVal (VString "default:v1")) (VPString (Some "custom:v2")) TString);
    [lia|reflexivity|reflexivity|reflexivity|by left|reflexivity|discriminate].
Defined.

(** X5.  Under the "pbool" tag the base value is asserted to be a bool
    whenever the override is not a pointer to one: with a base field of
    another type the resolver panics there, where the other tags return. *)
Theorem OverwriteAnsibleWithWorkflow_bool_assertion_panics
    (spec : AnsibleTestSpec) (sectionName : string) (step : Z)
    (w : WorkflowStep.t) (base : Interface) (override : GoValue) :
  0 ≤ step →
  Workflow spec !! Z.to_nat step = Some w →
  Spec_FieldByName spec sectionName = Some base →
  Step_FieldByName w sectionName = Some (IVal override) →
  (∀ b, override ≠ VPBool (Some b)) →
  (∀ b, base ≠ IVal (VBool b)) →
  OverwriteAnsibleWithWorkflow spec sectionName "pbool" step
  = Panic InterfaceConversion.
Proof.
  intros H0 Hw Hbase Hwv Hover Hnot.
  rewrite (OverwriteAnsibleWithWorkflow_in_range _ _ _ _ _ _ _ H0 Hw Hbase Hwv).
  cbn.
  assert (assert_bool base = Panic InterfaceConversion) as Hpanic.
  { destruct base as [|[]|]; try done. by destruct (Hnot b). }
  destruct override as [|[b|]| | | | | | | | | | |]; rewrite ?Hpanic; try done.
  by destruct (Hover b).
Qed.

Lemma OverwriteAnsibleWithWorkflow_bool_assertion_panics_witness :
  OverwriteAnsibleWithWorkflow spec_numeric "Label" "pbool" 0
  = Panic InterfaceConversion.
Proof.
  apply (OverwriteAnsibleWithWorkflow_bool_assertion_panics spec_numeric "Label" 0
           (step_with {[ "Retries" := VPUint8 (Some 5);
                         "ContainerImage" := VPString (Some "custom:v2");
                         "Label" := VPBool None ]})
           (IVal (VOther "resource.Quantity" "1Gi")) (VPBool None));
    [lia|reflexivity|reflexivity|reflexivity|discriminate|discriminate].
Defined.

(** ** PrepareAnsibleEnv *)

Ltac in_list H :=
  repeat (apply elem_of_cons in H as [?|H]); [..|by apply elem_of_nil in H];
  simplify_eq.

Lemma Spec_FieldByName_Fields spec name :
  name ∈ "Debug" :: "Privileged" :: string_sections →
  Spec_FieldByName spec name = IVal <$> Fields spec !! name.
Proof. intros H. in_list H; reflexivity. Qed.

Lemma Step_FieldByName_Fields w name :
  name ∈ "Debug" :: "Privileged" :: string_sections →
  Step_FieldByName w name = IVal <$> WorkflowStep.Fields w !! name.
Proof. intros H. in_list H; reflexivity. Qed.

Lemma OverwriteAnsibleWithWorkflow_negative_panics spec sectionName tag step :
  step < 0 → ∃ why, OverwriteAnsibleWithWorkflow spec sectionName tag step = Panic why.
Proof.
  intros Hneg. unfold OverwriteAnsibleWithWorkflow.
  rewrite decide_False by lia.
  destruct (Spec_FieldByName spec sectionName); cbn; [|eauto].
  unfold index. rewrite decide_False by lia. cbn. eauto.
Qed.

(** X6.  What [PrepareAnsibleEnv] returns holds exactly the three override
    parameters and the six env variables of its tables, each with the value
    resolved for its field at that step, and POD_DEBUG, always "true", only
    when Debug resolves to true. *)
Theorem PrepareAnsibleEnv_contents
    (spec : AnsibleTestSpec) (step : Z) (envVars params : gmap string string) :
  PrepareAnsibleEnv spec step = Done (envVars, params) →
  (∀ name, name ∈ override_param_names →
     ∃ v, resolve_string spec name step = Done v ∧ params !! name = Some v)
  ∧ (∀ name, name ∉ override_param_names → params !! name = None)
  ∧ (∀ var name, (var, name) ∈ env_var_table →
       ∃ v, resolve_string spec name step = Done v ∧ envVars !! var = Some v)
  ∧ (∃ debug, resolve_bool spec "Debug" step = Done debug
              ∧ envVars !! "POD_DEBUG" = if debug then Some "true" else None)
  ∧ (∀ var, var ≠ "POD_DEBUG" → var ∉ env_var_table.*1 → envVars !! var = None).
Proof.
  unfold PrepareAnsibleEnv. intros H.
  repeat match type of H with
         | context [resolve_string spec ?n step] =>
             destruct (resolve_string spec n step) eqn:?; cbn in H; [|done]
         | context [resolve_bool spec ?n step] =>
             destruct (resolve_bool spec n step) as [debug|] eqn:?; cbn in H; [|done]
         end.
  injection H as <- <-. split_and!.
  - intros name Hin. in_list Hin; eexists; (split; [eassumption|]); by simplify_map_eq.
  - intros name Hnot. unfold override_param_names in Hnot.
    rewrite !not_elem_of_cons in Hnot. destruct Hnot as (? & ? & ? & _).
    by rewrite !lookup_insert_ne, lookup_empty by done.
  - intros var name Hin. in_list Hin; simplify_eq.
    all: eexists; (split; [eassumption|]); by simplify_map_eq.
  - exists debug. split; [done|]. destruct debug; by simplify_map_eq.
  - intros var Hdebug Hnot. cbn in Hnot.
    rewrite !not_elem_of_cons in Hnot. destruct Hnot as (? & ? & ? & ? & ? & ? & _).
    destruct debug; by rewrite !lookup_insert_ne, lookup_empty by done.
Qed.

Lemma PrepareAnsibleEnv_contents_witness :
  ∃ v, resolve_string (spec_with base_fields [sample_step]) "ContainerImage" 0 = Done v
       ∧ pod_workflowOverrideParams sample_pod !! "ContainerImage" = Some v.
Proof.
  exact (proj1 (PrepareAnsibleEnv_contents (spec_with base_fields [sample_step]) 0
                  (pod_envVars sample_pod) (pod_workflowOverrideParams sample_pod)
                  eq_refl)
           "ContainerImage" ltac:(do 2 right; left)).
Defined.

Lemma resolve_string_defined spec name step :
  prepares spec → name ∈ string_sections → 0 ≤ step →
  ∃ v, resolve_string spec name step = Done v.
Proof.
  intros (Hbase & _ & Hsteps) Hname H0.
  destruct (Hbase name Hname) as [s Hs].
  assert (Hin : name ∈ "Debug" :: "Privileged" :: string_sections)
    by (by do 2 apply list_elem_of_further).
  assert (Hfield : Spec_FieldByName spec name = Some (IVal (VString s)))
    by (by rewrite Spec_FieldByName_Fields, Hs).
  unfold resolve_string.
  destruct (decide (step < Z.of_nat (length (Workflow spec)))) as [Hlt|Hge].
  - destruct (index_in_range (Workflow spec) step H0 Hlt) as (w & _ & Hw).
    destruct (Hsteps w name) as [v Hv];
      [by eapply list_elem_of_lookup_2|by apply list_elem_of_further|].
    assert (Hwv : Step_FieldByName w name = Some (IVal v))
      by (by rewrite Step_FieldByName_Fields, Hv).
    rewrite (OverwriteAnsibleWithWorkflow_in_range _ _ _ _ _ _ _ H0 Hw Hfield Hwv).
    rewrite !(decide_False (P := "string" = _)) by done.
    rewrite (decide_True (P := "string" = "string")) by done.
    destruct v; try case_decide; cbn; eauto.
  - rewrite OverwriteAnsibleWithWorkflow_out_of_range, Hfield by lia. cbn. eauto.
Qed.

Lemma resolve_bool_Debug_defined spec step :
  prepares spec → 0 ≤ step → ∃ b, resolve_bool spec "Debug" step = Done b.
Proof.
  intros (_ & [b Hb] & Hsteps) H0.
  assert (Hfield : Spec_FieldByName spec "Debug" = Some (IVal (VBool b)))
    by (by rewrite Spec_FieldByName_Fields, Hb by apply list_elem_of_here).
  unfold resolve_bool.
  destruct (decide (step < Z.of_nat (length (Workflow spec)))) as [Hlt|Hge].
  - destruct (index_in_range (Workflow spec) step H0 Hlt) as (w & _ & Hw).
    destruct (Hsteps w "Debug") as [v Hv];
      [by eapply list_elem_of_lookup_2|by apply list_elem_of_here|].
    assert (Hwv : Step_FieldByName w "Debug" = Some (IVal v))
      by (by rewrite Step_FieldByName_Fields, Hv by apply list_elem_of_here).
    rewrite (OverwriteAnsibleWithWorkflow_in_range _ _ _ _ _ _ _ H0 Hw Hfield Hwv).
    rewrite (decide_True (P := "pbool" = "pbool")) by done.
    destruct v as [|[]| | | | | | | | | | |]; cbn; eauto.
  - rewrite OverwriteAnsibleWithWorkflow_out_of_range, Hfield by lia. cbn. eauto.
Qed.

(** X7.  On a spec whose base has the nine string fields and a boolean
    Debug, and whose steps all have these names, [PrepareAnsibleEnv] returns
    for every step index from 0 on, within the workflow or beyond it,
    whatever the types of the overrides. *)
Theorem PrepareAnsibleEnv_defined (spec : AnsibleTestSpec) (step : Z) :
  prepares spec → 0 ≤ step → ∃ r, PrepareAnsibleEnv spec step = Done r.
Proof.
  intros Hspec H0. unfold PrepareAnsibleEnv.
  destruct (resolve_bool_Debug_defined spec step Hspec H0) as [debug ->].
  repeat match goal with
         | |- context [resolve_string spec ?n step] =>
             let H := fresh in
             destruct (resolve_string_defined spec n step Hspec) as [? H];
             [ unfold string_sections; cbn;
               repeat first [apply list_elem_of_here | apply list_elem_of_further]
             | done
             | rewrite H; clear H ]
         end.
  cbn. eauto.
Qed.

Lemma prepares_sample : prepares (spec_with base_fields [sample_step]).
Proof.
  split_and!.
  - intros name H. unfold string_sections in H. cbn in H.
    in_list H; eexists; reflexivity.
  - eexists. reflexivity.
  - intros w name Hw H. apply list_elem_of_singleton in Hw as ->.
    unfold string_sections in H. cbn in H.
    in_list H; eexists; reflexivity.
Qed.

Lemma PrepareAnsibleEnv_defined_witness :
  ∃ r, PrepareAnsibleEnv (spec_with base_fields [sample_step]) 5 = Done r.
Proof.
  apply PrepareAnsibleEnv_defined; [exact prepares_sample | lia].
Defined.

(** X8.  With a negative step index [PrepareAnsibleEnv] never returns: its
    first resolution panics. *)
Theorem PrepareAnsibleEnv_negative_step (spec : AnsibleTestSpec) (step : Z) :
  step < 0 → ∃ why, PrepareAnsibleEnv spec step = Panic why.
Proof.
  intros Hneg. unfold PrepareAnsibleEnv.
  assert (∃ why, resolve_string spec "WorkloadSSHKeySecretName" step = Panic why)
    as [why ->]; [|cbn; eauto].
  unfold resolve_string.
  destruct (OverwriteAnsibleWithWorkflow_negative_panics spec
              "WorkloadSSHKeySecretName" "string" step Hneg) as [why ->].
  cbn. eauto.
Qed.

Lemma PrepareAnsibleEnv_negative_step_witness :
  ∃ why, PrepareAnsibleEnv (spec_with base_fields [sample_step]) (-1) = Panic why.
Proof.
  apply PrepareAnsibleEnv_negative_step. lia.
Defined.

(** X9.  Beyond the override list the step's environment is made of the
    base fields alone: two specs with the same reflective base fields get
    the same result at an index past both their workflows, whatever those
    hold. *)
Theorem PrepareAnsibleEnv_beyond_overrides
    (spec spec' : AnsibleTestSpec) (step : Z) :
  Fields spec = Fields spec' →
  Z.of_nat (length (Workflow spec)) ≤ step →
  Z.of_nat (length (Workflow spec')) ≤ step →
  PrepareAnsibleEnv spec step = PrepareAnsibleEnv spec' step.
Proof.
  intros Hfields Hlen Hlen'.
  assert (Hsame : ∀ name tag,
            name ∈ "Debug" :: "Privileged" :: string_sections →
            OverwriteAnsibleWithWorkflow spec name tag step
            = OverwriteAnsibleWithWorkflow spec' name tag step).
  { intros name tag Hin.
    rewrite !OverwriteAnsibleWithWorkflow_out_of_range by done.
    by rewrite !Spec_FieldByName_Fields, Hfields by done. }
  unfold PrepareAnsibleEnv, resolve_string, resolve_bool.
  repeat match goal with
         | |- context [OverwriteAnsibleWithWorkflow spec ?n ?t step] =>
             rewrite (Hsame n t)
               by (unfold string_sections; cbn;
                   repeat first [apply list_elem_of_here | apply list_elem_of_further])
         end.
  done.
Qed.

Lemma PrepareAnsibleEnv_beyond_overrides_witness :
  PrepareAnsibleEnv (spec_with base_fields [sample_step]) 1
  = PrepareAnsibleEnv (spec_with base_fields []) 1.
Proof.
  apply PrepareAnsibleEnv_beyond_overrides; [reflexivity | simpl; lia | simpl; lia].
Defined.

(** ** The overrides of placement and resources *)

Lemma ApplyStepOverrides_frame spec step spec' :
  ApplyStepOverrides spec step = Done spec' →
  StorageClass spec' = StorageClass spec
  ∧ Workflow spec' = Workflow spec
  ∧ Fields spec' = Fields spec.
Proof.
  unfold ApplyStepOverrides. case_decide; [|by intros [= <-]].
  destruct (index (Workflow spec) step) as [w|]; cbn; [|done].
  intros [= <-].
  by destruct (WorkflowStep.NodeSelector w), (WorkflowStep.Tolerations w),
       (WorkflowStep.SELinuxLevel w), (WorkflowStep.Resources w).
Qed.

Lemma ApplyStepOverrides_in_range spec step w :
  step < Z.of_nat (length (Workflow spec)) →
  index (Workflow spec) step = Done w →
  ApplyStepOverrides spec step =
    Done {| StorageClass := StorageClass spec;
            NodeSelector := default (NodeSelector spec) (WorkflowStep.NodeSelector w);
            Tolerations := default (Tolerations spec) (WorkflowStep.Tolerations w);
            SELinuxLevel := default (SELinuxLevel spec) (WorkflowStep.SELinuxLevel w);
            Resources := default (Resources spec) (WorkflowStep.Resources w);
            Workflow := Workflow spec;
            Fields := Fields spec |}.
Proof.
  intros Hlt Hidx. unfold ApplyStepOverrides.
  rewrite decide_True by done. rewrite Hidx.
  destruct w as [[ns|] [tol|] [se|] [res|] fields]; by destruct spec.
Qed.

(** X10.  For a step index from 0 on the overwriting of the four fields
    never panics and is idempotent: done again on its own result, as a
    second pass over the same instance would, it changes nothing.  Past the
    workflow it changes nothing at all. *)
Theorem ApplyStepOverrides_idempotent (spec : AnsibleTestSpec) (step : Z) :
  0 ≤ step →
  ∃ spec', ApplyStepOverrides spec step = Done spec'
           ∧ ApplyStepOverrides spec' step = Done spec'
           ∧ (Z.of_nat (length (Workflow spec)) ≤ step → spec' = spec).
Proof.
  intros H0.
  destruct (decide (step < Z.of_nat (length (Workflow spec)))) as [Hlt|Hge].
  - destruct (index_in_range (Workflow spec) step H0 Hlt) as (w & Hidx & _).
    eexists. split; [by apply ApplyStepOverrides_in_range|]. split; [|lia].
    rewrite (ApplyStepOverrides_in_range _ step w) by done. cbn [Workflow StorageClass NodeSelector Tolerations SELinuxLevel Resources Fields].
    by destruct w as [[ns|] [tol|] [se|] [res|] fields].
  - exists spec. split; [|split; [|done]].
    all: unfold ApplyStepOverrides; by rewrite decide_False.
Qed.

Lemma ApplyStepOverrides_idempotent_witness :
  ∃ spec', ApplyStepOverrides (spec_with base_fields [sample_step]) 0 = Done spec'
           ∧ ApplyStepOverrides spec' 0 = Done spec'
           ∧ (Z.of_nat (length (Workflow (spec_with base_fields [sample_step]))) ≤ 0 →
              spec' = spec_with base_fields [sample_step]).
Proof.
  apply ApplyStepOverrides_idempotent. lia.
Defined.

(** ** Reconcile: the exits before and around the switch *)

Lemma elem_of_picked pick e tr : e ∈ picked pick tr → e ∈ tr.
Proof. unfold picked. rewrite list_elem_of_filter. by intros [_ ?]. Qed.

(** X11.  An instance that is not found ends the invocation with success
    and no requeue; an error of Get, or of the creation of the helper, is
    returned as it is.  On all three exits nothing was asked of the lock,
    the volume claim or the pods, and the status is not patched. *)
Theorem Reconcile_fetch_failure (env : Env) :
  match Client_Get env with
  | NotFound _ =>
      Reconcile env =
        (Returned Result_empty None,
         {| instance := AnsibleTest_zero; trace := [Call_Get] |})
  | GetFailed err =>
      Reconcile env =
        (Returned Result_empty (Some err),
         {| instance := AnsibleTest_zero; trace := [Call_Get] |})
  | Found obj =>
      ∀ err, NewHelper env = Some err →
        Reconcile env =
          (Returned Result_empty (Some err),
           {| instance := obj; trace := [Call_Get; Call_NewHelper] |})
  end.
Proof.
  destruct (Client_Get env) as [obj| |] eqn:Hget.
  - intros err Hhelper. exec. by rewrite Hget, Hhelper.
  - exec. by rewrite Hget.
  - exec. by rewrite Hget.
Qed.

Lemma Reconcile_fetch_failure_witness :
  Reconcile env_helper_fails =
    (Returned Result_empty (Some "no kind is registered for the type"),
     {| instance := sample_instance (Some completed_conditions);
        trace := [Call_Get; Call_NewHelper] |}).
Proof.
  exact (Reconcile_fetch_failure env_helper_fails
           "no kind is registered for the type" eq_refl).
Defined.

(** X12.  On Wait, on Failure and on an action outside the five, Reconcile
    asks nothing of the lock, the volume claim or the pods and writes no
    condition.  Wait requeues after the fixed interval without error;
    Failure hands back the error of NextAction, success if that is nil,
    without requeue; any other action is an error of its own. *)
Theorem Reconcile_without_action
    (env : Env) (obj : AnsibleTest) (cs : list Condition) (action : Action)
    (step : Z) (err0 : option error) :
  Client_Get env = Found obj →
  NewHelper env = None →
  Conditions obj = Some cs →
  NextAction env = (action, step, err0) →
  action = Wait ∨ action = Failure ∨ (∃ n, action = UnexpectedAction n) →
  let x := (Reconcile env).1 in
  let s := (Reconcile env).2 in
  let patched (err : option error) :=
    match PatchInstance env with Some e => Some e | None => err end in
  x = match action with
      | Wait =>
          Returned {| Requeue := false; RequeueAfter := RequeueAfterValue env |}
                   (patched None)
      | Failure => Returned Result_empty (patched err0)
      | _ => Returned Result_empty (patched (Some (ErrReceivedUnexpectedAction env)))
      end
  ∧ picked (λ e, match e with
                 | Call_Get | Call_NewHelper | Call_NextAction _
                 | Log_Info _ | Call_PatchInstance _ => false
                 | _ => true
                 end) (trace s) = []
  ∧ (∀ t, t ≠ ReadyCondition →
          Conditions_Get t (conditions_of (instance s)) = Conditions_Get t cs).
Proof.
  intros Hget Hhelper Hcs Hnext Haction. destruct obj as [name spec conds].
  cbn in Hcs. subst conds.
  exec. rewrite Hget, Hhelper. exec. rewrite Hnext.
  assert (Hrestore : ∀ t : ConditionType, t ≠ ReadyCondition →
            Conditions_Get t (deferred_conditions (Now env) cs cs)
            = Conditions_Get t cs).
  { intros t Ht. rewrite deferred_conditions_sub by done.
    destruct (Conditions_Get t cs) as [c|] eqn:Hc; [|done]. cbn. f_equal.
    unfold restore_time. rewrite (Conditions_Get_type _ _ _ Hc), Hc.
    rewrite decide_True by done. by destruct c. }
  destruct Haction as [->|[->|[n ->]]]; exec.
  all: split_and!; try done; by destruct (PatchInstance env).
Qed.

Lemma Reconcile_without_action_witness :
  (Reconcile env_wait).1
  = Returned {| Requeue := false; RequeueAfter := 60 |} None
  ∧ (Reconcile env_unexpected).1
    = Returned Result_empty (Some "received unexpected action").
Proof.
  split.
  - exact (proj1 (Reconcile_without_action env_wait
                    (sample_instance (Some running_conditions)) running_conditions
                    Wait 0 None eq_refl eq_refl eq_refl eq_refl
                    (or_introl eq_refl))).
  - exact (proj1 (Reconcile_without_action env_unexpected
                    (sample_instance (Some running_conditions)) running_conditions
                    (UnexpectedAction 7) 0 None eq_refl eq_refl eq_refl eq_refl
                    (or_intror (or_intror (ex_intro _ 7 eq_refl))))).
Defined.

(** ** Reconcile: the lock around the submission *)

(** X13.  A pod is submitted at most once in an invocation, and only after
    the lock was reported acquired in that same invocation, with no release
    in between. *)
Theorem Reconcile_submits_under_lock (env : Env) (p : PodArgs) :
  Call_CreatePod p ∈ trace (Reconcile env).2 →
  ∃ before after,
    trace (Reconcile env).2 = before ++ Call_CreatePod p :: after
    ∧ Call_AcquireLock true ∈ before
    ∧ (∀ b, Call_ReleaseLock b ∉ before)
    ∧ (∀ p', Call_CreatePod p' ∉ before)
    ∧ (∀ p', Call_CreatePod p' ∉ after).
Proof.
  explore; intros Hpod; in_trace Hpod.
  all: injection Hpod as ->.
  all: eexists [_; _; _; _; _; _; _; _; _; _], _; split; [reflexivity|].
  all: split_and!; [do 3 apply list_elem_of_further; apply list_elem_of_here|..].
  all: intros; not_in_trace.
Qed.

Lemma Reconcile_submits_under_lock_witness :
  ∃ before after,
    trace (Reconcile env_pod_created).2 = before ++ Call_CreatePod sample_pod :: after
    ∧ Call_AcquireLock true ∈ before
    ∧ (∀ b, Call_ReleaseLock b ∉ before)
    ∧ (∀ p', Call_CreatePod p' ∉ before)
    ∧ (∀ p', Call_CreatePod p' ∉ after).
Proof.
  apply Reconcile_submits_under_lock.
  apply elem_of_pods_submitted. vm_compute. apply list_elem_of_here.
Defined.

(** X14.  The lock is released at no other point than on EndTesting and
    after a submission that returned an error, and what the trace records is
    the answer of that one call. *)
Theorem Reconcile_releases_only (env : Env) (b : bool) :
  Call_ReleaseLock b ∈ trace (Reconcile env).2 →
  b = (ReleaseLock env).1
  ∧ ((NextAction env).1.1 = EndTesting
     ∨ ∃ result e p,
         CreatePod env = (result, Some e)
         ∧ Call_CreatePod p ∈ trace (Reconcile env).2).
Proof.
  explore; intros Hrel; in_trace Hrel.
  all: injection Hrel as ->; split; [done|].
  all: first [ by left
             | right; eexists _, _, _; split; [reflexivity|];
               repeat first [apply list_elem_of_here | apply list_elem_of_further] ].
Qed.

Lemma Reconcile_releases_only_witness :
  true = (ReleaseLock env_EndTesting).1
  ∧ ((NextAction env_EndTesting).1.1 = EndTesting
     ∨ ∃ result e p,
         CreatePod env_EndTesting = (result, Some e)
         ∧ Call_CreatePod p ∈ trace (Reconcile env_EndTesting).2).
Proof.
  apply Reconcile_releases_only.
  apply (elem_of_picked is_lock_call). vm_compute. apply list_elem_of_here.
Defined.

(** ** Reconcile: when the conditions change *)

Ltac status_of_written :=
  rewrite ?deferred_conditions_sub_status by done;
  rewrite ?status_of_Set_ne by done;
  try match goal with
      | |- context [status_of _ (Conditions_Set ?n ?c ?l)] =>
          let Hs := fresh in
          pose proof (status_of_Set_eq n c l) as Hs; cbn in Hs; rewrite Hs; clear Hs
      end;
  rewrite ?status_of_Set_ne by done.

(** X15.  Over a whole invocation, whatever the action, DeploymentReady ends
    True only if it was True when the instance was fetched, or the action
    was EndTesting and the release of the lock was reported. *)
Theorem Reconcile_DeploymentReady_True_only (env : Env) (obj : AnsibleTest) :
  Client_Get env = Found obj →
  status_of DeploymentReadyCondition (conditions_of (instance (Reconcile env).2))
    = Some ConditionTrue →
  status_of DeploymentReadyCondition (conditions_of obj) = Some ConditionTrue
  ∨ ((NextAction env).1.1 = EndTesting ∧ (ReleaseLock env).1 = true).
Proof.
  intros Hget. destruct obj as [name spec conds].
  exec. rewrite Hget. explore.
  all: status_of_written.
  all: try (by intros [=]); try (by left); try (by right).
  all: generalize (Now env); intros now; by vm_compute.
Qed.

Lemma Reconcile_DeploymentReady_True_only_witness :
  status_of DeploymentReadyCondition
    (conditions_of (sample_instance (Some running_conditions))) = Some ConditionTrue
  ∨ ((NextAction env_EndTesting).1.1 = EndTesting
     ∧ (ReleaseLock env_EndTesting).1 = true).
Proof.
  apply (Reconcile_DeploymentReady_True_only env_EndTesting
           (sample_instance (Some running_conditions)) eq_refl).
  by vm_compute.
Defined.

(** X16.  ServiceConfigReady ends True only if it was True when the
    instance was fetched, or this invocation, on one of the two creating
    actions, had the lock reported acquired and found the logs volume claim
    in place (no error and an empty result). *)
Theorem Reconcile_ServiceConfigReady_True_only (env : Env) (obj : AnsibleTest) :
  Client_Get env = Found obj →
  status_of ServiceConfigReadyCondition (conditions_of (instance (Reconcile env).2))
    = Some ConditionTrue →
  status_of ServiceConfigReadyCondition (conditions_of obj) = Some ConditionTrue
  ∨ (((NextAction env).1.1 = CreateFirstPod ∨ (NextAction env).1.1 = CreateNextPod)
     ∧ (AcquireLock env).1 = true
     ∧ EnsureLogsPVCExists env = (Result_empty, None)).
Proof.
  intros Hget. destruct obj as [name spec conds].
  exec. rewrite Hget. explore.
  all: status_of_written.
  all: try (by intros [=]); try (by left).
  all: try (generalize (Now env); intros now; by vm_compute).
  all: intros _; right.
  all: match goal with
       | n : ¬ ?c ≠ Result_empty |- _ =>
           rewrite (dec_stable n : c = Result_empty)
       end.
  all: split_and!; by eauto.
Qed.

Lemma Reconcile_ServiceConfigReady_True_only_witness :
  status_of ServiceConfigReadyCondition
    (conditions_of (sample_instance (Some running_conditions))) = Some ConditionTrue
  ∨ (((NextAction env_pod_created).1.1 = CreateFirstPod
      ∨ (NextAction env_pod_created).1.1 = CreateNextPod)
     ∧ (AcquireLock env_pod_created).1 = true
     ∧ EnsureLogsPVCExists env_pod_created = (Result_empty, None)).
Proof.
  apply (Reconcile_ServiceConfigReady_True_only env_pod_created
           (sample_instance (Some running_conditions)) eq_refl).
  by vm_compute.
Defined.


(** ** Reconcile: the steps between the lock and the submission *)

(** The deferred function gives back a sub-condition that the body left as
    it was saved. *)
Lemma deferred_conditions_unchanged now cs t :
  t ≠ ReadyCondition →
  Conditions_Get t (deferred_conditions now cs cs) = Conditions_Get t cs.
Proof.
  intros Ht. rewrite deferred_conditions_sub by done.
  destruct (Conditions_Get t cs) as [c|] eqn:Hc; [|done]. cbn. f_equal.
  unfold restore_time. rewrite (Conditions_Get_type _ _ _ Hc), Hc.
  rewrite decide_True by done. by destruct c.
Qed.

(** X17.  When the logs volume claim is not in place, on an error or on a
    requeue result of its own, Reconcile hands that result and error back
    and stops there: no condition is written, no pod is built or submitted,
    and the lock this invocation acquired is not released. *)
Theorem Reconcile_PVC_not_ready
    (env : Env) (obj : AnsibleTest) (labels : list (LabelKey * string))
    (storageClass : string) (result : ctrl_Result) (err : option error) :
  Client_Get env = Found obj →
  Call_EnsureLogsPVCExists labels storageClass ∈ trace (Reconcile env).2 →
  EnsureLogsPVCExists env = (result, err) →
  err ≠ None ∨ result ≠ Result_empty →
  let x := (Reconcile env).1 in
  let s := (Reconcile env).2 in
  x = Returned result (match PatchInstance env with Some e => Some e | None => err end)
  ∧ storageClass = StorageClass (Spec obj)
  ∧ (∀ c, Conditions_Write c ∉ trace s)
  ∧ (∀ p, Call_Pod p ∉ trace s)
  ∧ (∀ p, Call_CreatePod p ∉ trace s)
  ∧ (∀ b, Call_ReleaseLock b ∉ trace s)
  ∧ (∀ t, t ≠ ReadyCondition →
          Conditions_Get t (conditions_of (instance s))
          = Conditions_Get t (conditions_of obj)).
Proof.
  intros Hget. destruct obj as [name spec conds].
  exec. rewrite Hget.
  explore; intros Hin Hpvc Hnot; in_trace Hin.
  all: injection Hin as -> ->; simplify_eq.
  all: try (by destruct Hnot as [Hnot|Hnot]).
  all: split_and!; try done; try (by destruct (PatchInstance env)).
  all: try (intros; not_in_trace).
  all: intros t Ht; by apply deferred_conditions_unchanged.
Qed.

Lemma Reconcile_PVC_not_ready_witness :
  (Reconcile env_pvc_pending).1
  = Returned {| Requeue := false; RequeueAfter := 60 |} None
  ∧ (∀ p, Call_CreatePod p ∉ trace (Reconcile env_pvc_pending).2)
  ∧ (∀ b, Call_ReleaseLock b ∉ trace (Reconcile env_pvc_pending).2).
Proof.
  assert (Hin : Call_EnsureLogsPVCExists
                  [ (AppSelector, "ansibleTest"); (workflowStepLabel, "0");
                    (instanceNameLabel, "ansibletest-sample");
                    (operatorNameLabel, "test-operator") ] "local-storage"
                ∈ trace (Reconcile env_pvc_pending).2).
  { apply (elem_of_picked is_pvc_call). vm_compute. apply list_elem_of_here. }
  assert (Hnot : (None : option error) ≠ None
                 ∨ {| Requeue := false; RequeueAfter := 60 |} ≠ Result_empty)
    by (right; discriminate).
  pose proof (Reconcile_PVC_not_ready env_pvc_pending
                (sample_instance (Some running_conditions))
                [ (AppSelector, "ansibleTest"); (workflowStepLabel, "0");
                  (instanceNameLabel, "ansibletest-sample");
                  (operatorNameLabel, "test-operator") ] "local-storage"
                {| Requeue := false; RequeueAfter := 60 |} None) as H.
  specialize (H eq_refl). specialize (H Hin). specialize (H eq_refl).
  specialize (H Hnot). cbv zeta in H.
  destruct H as (Hx & _ & _ & _ & Hpod & Hrel & _).
  split_and!; [exact Hx | exact Hpod | exact Hrel].
Defined.

(** X18.  When no container image can be resolved, no pod is built or
    submitted and the lock is not released.  Privileged is resolved before
    the error is looked at: when that resolution returns, Reconcile returns
    the error of the image resolution with an empty result; when it panics,
    Reconcile panics with its reason. *)
Theorem Reconcile_image_unresolved
    (env : Env) (obj : AnsibleTest) (action : Action) (step : Z)
    (err0 : option error) (e : error) :
  Client_Get env = Found obj →
  NextAction env = (action, step, err0) →
  (∀ image o, (GetContainerImage env image o).2 = Some e) →
  let x := (Reconcile env).1 in
  let s := (Reconcile env).2 in
  (∀ p, Call_Pod p ∉ trace s)
  ∧ (∀ p, Call_CreatePod p ∉ trace s)
  ∧ (∀ image, Call_GetContainerImage image ∈ trace s →
       x = match resolve_bool (Spec obj) "Privileged" step with
           | Done _ => Returned Result_empty (Some (default e (PatchInstance env)))
           | Panic why => Panicked why
           end
       ∧ (∀ b, Call_ReleaseLock b ∉ trace s)).
Proof.
  intros Hget Hnext Himg. destruct obj as [name spec conds].
  exec. rewrite Hget. exec.
  destruct (NewHelper env); exec;
    [split_and!; [intros; not_in_trace ..|intros image Hin; in_trace Hin]|].
  destruct conds as [cs|]; exec;
    [|split_and!; [intros; not_in_trace ..|intros image Hin; in_trace Hin]].
  rewrite Hnext. explore.
  all: repeat match goal with
       | H : GetContainerImage _ ?i ?o = _ |- _ =>
           let H' := fresh in
           pose proof (Himg i o) as H'; rewrite H in H'; cbn in H';
           first [discriminate H' | injection H' as ->]; clear H
       end.
  all: split_and!; try (intros; not_in_trace).
  all: intros image Hin; in_trace Hin; (split; [|intros; not_in_trace]).
  all: by destruct (PatchInstance env).
Qed.

Lemma Reconcile_image_unresolved_witness :
  (∀ p, Call_CreatePod p ∉ trace (Reconcile env_image_unresolved).2)
  ∧ (Reconcile env_image_unresolved).1
    = Returned Result_empty (Some "no image for ansibleTest").
Proof.
  assert (Hin : Call_GetContainerImage "custom:v2"
                ∈ trace (Reconcile env_image_unresolved).2).
  { apply (elem_of_picked is_image_call). vm_compute. apply list_elem_of_here. }
  pose proof (Reconcile_image_unresolved env_image_unresolved
                (sample_instance (Some running_conditions))
                CreateFirstPod 0 None
                "no image for ansibleTest") as H.
  specialize (H eq_refl). specialize (H eq_refl).
  specialize (H (λ _ _, eq_refl)). cbv zeta in H.
  destruct H as (_ & Hpod & Himage).
  split; [exact Hpod|]. exact (proj1 (Himage "custom:v2" Hin)).
Defined.

(** X19.  When the submission returns no error the lock stays with the
    instance.  With an empty result Reconcile logs the success and returns
    it, and DeploymentReady is left as it was fetched; with any other result
    it sets DeploymentReady to False with reason Requested, as information,
    and hands the result back without error. *)
Theorem Reconcile_submission_accepted
    (env : Env) (obj : AnsibleTest) (p : PodArgs) (result : ctrl_Result) :
  Client_Get env = Found obj →
  Call_CreatePod p ∈ trace (Reconcile env).2 →
  CreatePod env = (result, None) →
  let x := (Reconcile env).1 in
  let s := (Reconcile env).2 in
  let cs' := conditions_of (instance s) in
  x = Returned result (PatchInstance env)
  ∧ (∀ b, Call_ReleaseLock b ∉ trace s)
  ∧ (result = Result_empty →
     Log_Info ReconciledServiceSuccessfully ∈ trace s
     ∧ status_of DeploymentReadyCondition cs'
       = status_of DeploymentReadyCondition (conditions_of obj))
  ∧ (result ≠ Result_empty →
     ∃ c, Conditions_Get DeploymentReadyCondition cs' = Some c
          ∧ Status c = ConditionFalse
          ∧ Reason c = RequestedReason
          ∧ Severity c = SeverityInfo
          ∧ Message c = (DeploymentReadyRunningMessage, [])).
Proof.
  intros Hget. destruct obj as [name spec conds].
  exec. rewrite Hget.
  explore; intros Hin Hcreate; in_trace Hin.
  all: injection Hin as ->; simplify_eq.
  all: try match goal with
       | n : ¬ ?c ≠ Result_empty |- _ =>
           let H := fresh in
           pose proof (dec_stable n : c = Result_empty) as H;
           clear dependent n; subst c
       end.
  all: split_and!; try (by destruct (PatchInstance env)); try (intros; not_in_trace).
  all: try (intros ->; done).
  all: try (intros _; (split;
            [ repeat first [apply list_elem_of_here | apply list_elem_of_further]
            | status_of_written; done ])).
  all: try (intros Hne; exfalso; by eauto using dec_stable).
  all: intros _; rewrite deferred_conditions_sub by done.
  all: match goal with
       | |- context [Conditions_Set ?now (FalseCondition ?t ?r ?sv ?m ?a) ?cs] =>
           destruct (Conditions_Get_Set_FalseCondition now t r sv m a cs) as [time ->]
       end.
  all: eexists; split; [reflexivity|].
  all: match goal with
       | |- context [restore_time ?saved ?c] =>
           by destruct (restore_time_fields saved c) as (_ & -> & -> & -> & ->)
       end.
Qed.

Lemma Reconcile_submission_accepted_witness :
  (Reconcile env_pod_pending).1
  = Returned {| Requeue := false; RequeueAfter := 60 |} None
  ∧ ∃ c, Conditions_Get DeploymentReadyCondition
           (conditions_of (instance (Reconcile env_pod_pending).2)) = Some c
         ∧ Status c = ConditionFalse
         ∧ Reason c = RequestedReason
         ∧ Severity c = SeverityInfo
         ∧ Message c = (DeploymentReadyRunningMessage, []).
Proof.
  assert (Hin : Call_CreatePod sample_pod ∈ trace (Reconcile env_pod_pending).2)
    by (apply elem_of_pods_submitted; vm_compute; apply list_elem_of_here).
  pose proof (Reconcile_submission_accepted env_pod_pending
                (sample_instance (Some running_conditions)) sample_pod
                {| Requeue := false; RequeueAfter := 60 |}) as H.
  specialize (H eq_refl). specialize (H Hin). specialize (H eq_refl).
  cbv zeta in H. destruct H as (Hx & _ & _ & Hc).
  split; [exact Hx | apply Hc; discriminate].
Defined.


(** ** Reconcile: what the pod is made of *)

Lemma PrepareAnsibleEnv_image spec step envVars params :
  PrepareAnsibleEnv spec step = Done (envVars, params) →
  ∃ v, resolve_string spec "ContainerImage" step = Done v
       ∧ params !! "ContainerImage" = Some v.
Proof.
  unfold PrepareAnsibleEnv. intros H.
  repeat match type of H with
         | context [resolve_string spec ?n step] =>
             destruct (resolve_string spec n step) eqn:?; cbn in H; [|done]
         | context [resolve_bool spec ?n step] =>
             destruct (resolve_bool spec n step) eqn:?; cbn in H; [|done]
         end.
  injection H as <- <-. eexists. split; [reflexivity|]. by simplify_map_eq.
Qed.

(** X20.  The pod that is built is made of what the resolver gives for the
    step NextAction named, on the spec as it was fetched: the environment
    and override parameters of PrepareAnsibleEnv and the resolved Privileged
    flag; it carries the step in its labels and belongs to the fetched
    instance.  Every pod built is submitted, and nothing else is. *)
Theorem Reconcile_pod_arguments
    (env : Env) (obj : AnsibleTest) (p : PodArgs) (step : Z) :
  Client_Get env = Found obj →
  (NextAction env).1.2 = step →
  Call_Pod p ∈ trace (Reconcile env).2 →
  PrepareAnsibleEnv (Spec obj) step
    = Done (pod_envVars p, pod_workflowOverrideParams p)
  ∧ resolve_bool (Spec obj) "Privileged" step = Done (pod_privileged p)
  ∧ pod_workflowStep p = step
  ∧ pod_labels p =
      [ (AppSelector, ServiceName env); (workflowStepLabel, pretty step);
        (instanceNameLabel, Name obj); (operatorNameLabel, "test-operator") ]
  ∧ pod_mountCerts p = CheckSecretExists env "combined-ca-bundle"
  ∧ Name (pod_instance p) = Name obj
  ∧ Call_CreatePod p ∈ trace (Reconcile env).2
  ∧ (∀ p', Call_CreatePod p' ∈ trace (Reconcile env).2 → p' = p).
Proof.
  intros Hget. destruct obj as [name spec conds].
  exec. rewrite Hget.
  explore; intros Hstep Hin; in_trace Hin.
  all: injection Hin as ->; cbn in Hstep; subst.
  all: split_and!; try done.
  all: try (repeat first [apply list_elem_of_here | apply list_elem_of_further]).
  all: intros p' Hp'; in_trace Hp'; by injection Hp' as ->.
Qed.

Lemma Reconcile_pod_arguments_witness :
  PrepareAnsibleEnv (spec_with base_fields [sample_step]) 0
    = Done (pod_envVars sample_pod, pod_workflowOverrideParams sample_pod)
  ∧ Call_CreatePod sample_pod ∈ trace (Reconcile env_pod_created).2.
Proof.
  assert (Hin : Call_Pod sample_pod ∈ trace (Reconcile env_pod_created).2)
    by (apply elem_of_pods_built; vm_compute; apply list_elem_of_here).
  pose proof (Reconcile_pod_arguments env_pod_created
                (sample_instance (Some running_conditions)) sample_pod 0) as H.
  specialize (H eq_refl). specialize (H eq_refl). specialize (H Hin).
  destruct H as (Henv & _ & _ & _ & _ & _ & Hsub & _).
  split; [exact Henv | exact Hsub].
Defined.

(** X21.  The image asked of GetContainerImage is the one the resolver gives
    for ContainerImage at the step: the step's image when it has one that is
    not empty, the base image otherwise. *)
Theorem Reconcile_image_argument
    (env : Env) (obj : AnsibleTest) (image : string) (step : Z) :
  Client_Get env = Found obj →
  (NextAction env).1.2 = step →
  Call_GetContainerImage image ∈ trace (Reconcile env).2 →
  resolve_string (Spec obj) "ContainerImage" step = Done image.
Proof.
  intros Hget. destruct obj as [name spec conds].
  exec. rewrite Hget.
  explore; intros Hstep Hin; in_trace Hin.
  all: injection Hin as ->; cbn in Hstep; subst.
  all: match goal with
       | H : PrepareAnsibleEnv _ _ = Done _ |- _ =>
           apply PrepareAnsibleEnv_image in H as (v & Hv & Hlookup)
       end.
  all: by simplify_eq.
Qed.

Lemma Reconcile_image_argument_witness :
  resolve_string (spec_with base_fields [sample_step]) "ContainerImage" 0
  = Done "custom:v2".
Proof.
  assert (Hin : Call_GetContainerImage "custom:v2"
                ∈ trace (Reconcile env_pod_created).2).
  { apply (elem_of_picked is_image_call). vm_compute. apply list_elem_of_here. }
  pose proof (Reconcile_image_argument env_pod_created
                (sample_instance (Some running_conditions)) "custom:v2" 0) as H.
  specialize (H eq_refl). specialize (H eq_refl). exact (H Hin).
Defined.

(** X22.  Whatever happens, Reconcile leaves the name of the instance, its
    storage class, its workflow and its reflective fields as they were
    fetched; the spec changes at all only in an invocation that builds a
    pod. *)
Theorem Reconcile_frame (env : Env) (obj : AnsibleTest) :
  Client_Get env = Found obj →
  let obj' := instance (Reconcile env).2 in
  Name obj' = Name obj
  ∧ StorageClass (Spec obj') = StorageClass (Spec obj)
  ∧ Workflow (Spec obj') = Workflow (Spec obj)
  ∧ Fields (Spec obj') = Fields (Spec obj)
  ∧ ((∀ p, Call_Pod p ∉ trace (Reconcile env).2) → Spec obj' = Spec obj).
Proof.
  intros Hget. destruct obj as [name spec conds].
  exec. rewrite Hget.
  explore.
  all: try match goal with
       | H : ApplyStepOverrides _ _ = Done _ |- _ =>
           apply ApplyStepOverrides_frame in H as (? & ? & ?)
       end.
  all: split_and!; try done.
  all: intros Hnone; exfalso; eapply Hnone.
  all: repeat first [apply list_elem_of_here | apply list_elem_of_further].
Qed.

Lemma Reconcile_frame_witness :
  Workflow (Spec (instance (Reconcile env_pod_created).2)) = [sample_step]
  ∧ Fields (Spec (instance (Reconcile env_pod_created).2)) = base_fields.
Proof.
  pose proof (Reconcile_frame env_pod_created
                (sample_instance (Some running_conditions))) as H.
  specialize (H eq_refl). cbv zeta in H.
  destruct H as (_ & _ & Hw & Hf & _).
  split; [exact Hw | exact Hf].
Defined.

(** X23.  When resolving the parameters of the step panics, as it does for
    a negative step or a field of the wrong type, Reconcile panics with the
    same reason, holding the lock it has just been reported to have: the
    lock is not released, ServiceConfigReady is already True, no pod is
    built, and the deferred status patch still runs, last. *)
Theorem Reconcile_panics_holding_lock
    (env : Env) (obj : AnsibleTest) (cs : list Condition) (action : Action)
    (step : Z) (err0 aerr : option error) (why : PanicReason) (held : bool) :
  Client_Get env = Found obj →
  NewHelper env = None →
  Conditions obj = Some cs →
  NextAction env = (action, step, err0) →
  action = CreateFirstPod ∨ action = CreateNextPod →
  AcquireLock env = (true, aerr) →
  EnsureLogsPVCExists env = (Result_empty, None) →
  PrepareAnsibleEnv (Spec obj) step = Panic why →
  let x := (Reconcile env).1 in
  let s := (Reconcile env).2 in
  x = Panicked why
  ∧ lock_held held (trace s) = true
  ∧ (∀ b, Call_ReleaseLock b ∉ trace s)
  ∧ (∀ p, Call_Pod p ∉ trace s)
  ∧ status_of ServiceConfigReadyCondition (conditions_of (instance s))
    = Some ConditionTrue
  ∧ last (trace s) = Some (Call_PatchInstance (instance s)).
Proof.
  intros Hget Hhelper Hcs Hnext Haction Hacq Hpvc Hpanic.
  destruct obj as [name spec conds]. cbn in Hcs, Hpanic. subst conds.
  exec. rewrite Hget, Hhelper. exec. rewrite Hnext.
  destruct Haction as [-> | ->]; exec; rewrite Hacq; exec; rewrite Hpvc; exec.
  all: rewrite decide_False by (by intros ?); exec; rewrite Hpanic; exec.
  all: split_and!; try done; try (by destruct (PatchInstance env));
       try (intros; not_in_trace).
  all: rewrite deferred_conditions_sub_status by done.
  all: exact (status_of_Set_eq (Now env)
                (TrueCondition ServiceConfigReadyCondition ServiceConfigReadyMessage) cs).
Qed.

Lemma Reconcile_panics_holding_lock_witness :
  (Reconcile env_negative_step).1 = Panicked IndexOutOfRange
  ∧ lock_held false (trace (Reconcile env_negative_step).2) = true.
Proof.
  pose proof (Reconcile_panics_holding_lock env_negative_step
                (sample_instance (Some running_conditions)) running_conditions
                CreateNextPod (-1) None None IndexOutOfRange false) as H.
  specialize (H eq_refl). specialize (H eq_refl). specialize (H eq_refl).
  specialize (H eq_refl). specialize (H (or_intror eq_refl)).
  specialize (H eq_refl). specialize (H eq_refl). specialize (H eq_refl).
  cbv zeta in H. destruct H as (Hx & Hheld & _).
  split; [exact Hx | exact Hheld].
Defined.
